(** * A shallow embedding of the iterative DNS resolver (resolver.go)

    The development follows the source file top-down:
    - the data model of [golang.org/x/net/dns/dnsmessage] as far as the
      resolver touches it (headers, questions, resources, messages),
    - the external collaborators (random source, wire codec, network) as an
      interface with the guarantees the resolver relies on,
    - a small monad for the effects of the Go code (shared world, error
      returns, panics, and recursion that need not bottom out),
    - [getRootServers], [outgoingDnsQuery], [dnsQuery] and [handlePacket],
    - the properties of these functions. *)

From Stdlib Require Import ZArith List String Ascii Bool Arith Lia.
Import ListNotations.
Local Open Scope string_scope.
Local Open Scope list_scope.

(* ===================================================================== *)
(** * Data model *)
(* ===================================================================== *)

(** Go's [error] values are identified with their message. *)
Definition Error := string.

(** A datagram: a Go [[]byte]. *)
Definition bytes := list Byte.byte.

(** [net.IP] is a byte slice; each byte is kept as a [Z] in [0, 255]. *)
Definition IP := list Z.

(** [uint16(x)]: conversion of an integer to 16 bits wraps around. *)
Definition uint16 (x : Z) : Z := (x mod 65536)%Z.

(** [dnsmessage.Type], [dnsmessage.Class] and [dnsmessage.RCode] are
    [uint16] constants. *)
Definition TypeA : Z := 1.
Definition TypeNS : Z := 2.
Definition TypeCNAME : Z := 5.
Definition TypeSOA : Z := 6.
Definition ClassINET : Z := 1.

Definition RCodeSuccess : Z := 0.
Definition RCodeFormatError : Z := 1.
Definition RCodeServerFailure : Z := 2.
Definition RCodeNameError : Z := 3.

(** [dnsmessage.Name]: [Data] holds the first [Length] bytes of the array
    of 255 bytes, so a well-formed name has at most 255 bytes. *)
Record Name := { Data : string }.

Definition Name_String (n : Name) : string := Data n.

Definition nameLen : nat := 255.

(** [dnsmessage.NewName] fails exactly when the string does not fit the
    255 bytes of [Name.Data]; the empty string fits. *)
Definition NewName (name : string) : Error + Name :=
  if Nat.ltb nameLen (String.length name)
  then inl "insufficient data for calculated length type"
  else inr {| Data := name |}.

Record Header := {
  ID : Z;
  Response : bool;
  OpCode : Z;
  Authoritative : bool;
  Truncated : bool;
  RecursionDesired : bool;
  RecursionAvailable : bool;
  RCode : Z
}.

(** The zero value of [dnsmessage.Header]. *)
Definition zeroHeader : Header :=
  {| ID := 0; Response := false; OpCode := 0; Authoritative := false;
     Truncated := false; RecursionDesired := false;
     RecursionAvailable := false; RCode := RCodeSuccess |}.

Record Question := {
  Q_Name : Name;
  Q_Type : Z;
  Q_Class : Z
}.

Record ResourceHeader := {
  RH_Name : Name;
  RH_Type : Z;
  RH_Class : Z;
  RH_TTL : Z
}.

(** [dnsmessage.ResourceBody] is an interface; the resolver only ever
    asserts the two implementations [*AResource] and [*NSResource]. *)
Inductive ResourceBody :=
| AResource (A : IP)
| NSResource (NS : Name)
| SOAResource (NS MBox : Name) (Serial Refresh Retry Expire MinTTL : Z)
| OtherResource (rdata : list Z).

Record Resource := {
  R_Header : ResourceHeader;
  Body : ResourceBody
}.

Record Message := {
  M_Header : Header;
  Questions : list Question;
  Answers : list Resource;
  Authorities : list Resource;
  Additionals : list Resource
}.

(** [response.ID = id] on a [*dnsmessage.Message]. *)
Definition setID (m : Message) (id : Z) : Message :=
  {| M_Header :=
       {| ID := id;
          Response := Response (M_Header m);
          OpCode := OpCode (M_Header m);
          Authoritative := Authoritative (M_Header m);
          Truncated := Truncated (M_Header m);
          RecursionDesired := RecursionDesired (M_Header m);
          RecursionAvailable := RecursionAvailable (M_Header m);
          RCode := RCode (M_Header m) |};
     Questions := Questions m;
     Answers := Answers m;
     Authorities := Authorities m;
     Additionals := Additionals m |}.

(** A [dnsmessage.Parser] positioned after the question section. The three
    remaining sections are decoded lazily, each call may fail; the record
    holds what [AllAnswers], [AllAuthorities] and [AllAdditionals] return
    when called in this order. *)
Record Parser := {
  P_Answers : Error + list Resource;
  P_Authorities : Error + list Resource;
  P_Additionals : Error + list Resource
}.

Definition AllAnswers (p : Parser) := P_Answers p.
Definition AllAuthorities (p : Parser) := P_Authorities p.
Definition AllAdditionals (p : Parser) := P_Additionals p.

(** ** What the wire codec guarantees about decoded resources

    The decoder chooses the body from the type in the header, and every
    decoded name has between 1 and 255 bytes (the root is "."). *)

Definition wfName (n : Name) : bool :=
  Nat.leb 1 (String.length (Data n)) && Nat.leb (String.length (Data n)) nameLen.

Definition wfBody (r : Resource) : bool :=
  match Body r with
  | AResource _ => Z.eqb (RH_Type (R_Header r)) TypeA
  | NSResource ns => Z.eqb (RH_Type (R_Header r)) TypeNS && wfName ns
  | SOAResource _ _ _ _ _ _ _ => Z.eqb (RH_Type (R_Header r)) TypeSOA
  | OtherResource _ =>
      negb (Z.eqb (RH_Type (R_Header r)) TypeA)
      && negb (Z.eqb (RH_Type (R_Header r)) TypeNS)
      && negb (Z.eqb (RH_Type (R_Header r)) TypeSOA)
  end.

Definition wfResource (r : Resource) : bool :=
  wfName (RH_Name (R_Header r)) && wfBody r.

Definition wfSection (sec : Error + list Resource) : bool :=
  match sec with
  | inl _ => true
  | inr rs => forallb wfResource rs
  end.

Definition wfParser (p : Parser) : bool :=
  wfSection (P_Answers p) && wfSection (P_Authorities p)
  && wfSection (P_Additionals p).

(* ===================================================================== *)
(** * Root servers *)
(* ===================================================================== *)

Definition ROOT_SERVERS : string :=
  "198.41.0.4,199.9.14.201,192.33.4.12,199.7.91.13,192.203.230.10,192.5.5.241,192.112.36.4,198.97.190.53".

(** [strings.Split(s, sep)] for a separator of one byte; [cur] is the
    field read so far. *)
Fixpoint splitFrom (sep : ascii) (s cur : string) : list string :=
  match s with
  | EmptyString => [cur]
  | String c s' =>
      if Ascii.eqb c sep then cur :: splitFrom sep s' ""
      else splitFrom sep s' (cur ++ String c "")
  end.

Definition Split (s : string) (sep : ascii) : list string :=
  splitFrom sep s "".

(** The value of a string of decimal digits. *)
Fixpoint parseDigits (s : string) (acc : Z) : option Z :=
  match s with
  | EmptyString => Some acc
  | String c s' =>
      let d := (Z.of_nat (nat_of_ascii c) - 48)%Z in
      if (0 <=? d)%Z && (d <=? 9)%Z then parseDigits s' (10 * acc + d)%Z
      else None
  end.

(** A zero followed by another byte. *)
Definition leadingZero (s : string) : bool :=
  match s with
  | String c (String _ _) => Ascii.eqb c "0"
  | _ => false
  end.

(** A field of a dotted-decimal address: one to three decimal digits, at
    most 255, and no leading zero before another digit. *)
Definition parseOctet (s : string) : option Z :=
  match s with
  | EmptyString => None
  | _ =>
      if leadingZero s then None
      else if Nat.ltb 3 (String.length s) then None
      else match parseDigits s 0 with
           | Some n => if (n <=? 255)%Z then Some n else None
           | None => None
           end
  end.

Definition v4InV6Prefix : IP := [0; 0; 0; 0; 0; 0; 0; 0; 0; 0; 255; 255]%Z.

(** [net.ParseIP] on text without a colon, where it can only be a
    dotted-decimal IPv4 address (the only form that occurs in
    [ROOT_SERVERS]): the result is the 16-byte form of the address, and nil
    (the empty slice) when the text is not such an address. Text with a
    colon (the IPv6 forms) is outside this model. *)
Definition ParseIP (s : string) : IP :=
  match map parseOctet (Split s ".") with
  | [Some a; Some b; Some c; Some d] => v4InV6Prefix ++ [a; b; c; d]
  | _ => []
  end.

(** Lines 17 to 24. *)
Definition getRootServers : list IP :=
  fold_left (fun rootServers rootServer => rootServers ++ [ParseIP rootServer])
            (Split ROOT_SERVERS ",") [].

(* ===================================================================== *)
(** * External collaborators *)
(* ===================================================================== *)

(** Everything the resolver calls outside of its own two files: the random
    source, the wire codec and the network. [World] is the state of the
    outside world as one goroutine sees it; each call may change it. The
    last two fields are the guarantees of the libraries that the resolver
    relies on. *)
Class External := {
  World : Type;
  Conn : Type;
  Addr : Type;
  (** [rand.Int(rand.Reader, max)] *)
  rand_Int : Z -> World -> (Error + Z) * World;
  (** [message.Pack()] *)
  Pack : Message -> Error + bytes;
  (** [net.Dial("udp", server.String()+":53")] *)
  Dial : IP -> World -> (Error + Conn) * World;
  (** Lines 71 to 113 of [outgoingDnsQuery] on an open connection: write
      the datagram, read one reply of at most 512 bytes, close, decode the
      header, check that the reply has as many questions as the query and
      skip them. *)
  roundTrip : Conn -> bytes -> World -> (Error + (Parser * Header)) * World;
  (** [p.Start(buf)] followed by [p.Question()] on a client datagram *)
  Parser_Start : bytes -> Error + Header;
  Parser_Question : bytes -> Error + Question;
  (** [pc.WriteTo(responseBuf, addr)] *)
  WriteTo : bytes -> Addr -> World -> option Error * World;
  (** [rand.Int] returns a value in [[0, max)]. *)
  rand_Int_range : forall max w n w',
    (0 < max)%Z -> rand_Int max w = (inr n, w') -> (0 <= n < max)%Z;
  (** Decoded sections are well formed. *)
  roundTrip_wf : forall conn buf w p h w',
    roundTrip conn buf w = (inr (p, h), w') -> wfParser p = true
}.

(* ===================================================================== *)
(** * Effects *)
(* ===================================================================== *)

(** What the three [fmt.Printf] calls of [dnsQuery] and [outgoingDnsQuery]
    write to standard output, each tagged with the nesting depth of the
    [dnsQuery] call that printed it (0 for the call made by the caller,
    1 for a sub-resolution it starts, and so on). *)
Inductive Event :=
| EvQuestion (depth : nat) (question : Question)
| EvOutgoing (depth : nat) (question : Question) (servers : list IP)
| EvWarning (depth : nat) (nameserver : string) (err : Error).

(** How a Go call ends: it returns a value with a nil error, returns a
    non-nil error, panics, or (for the recursion of [dnsQuery] only) has
    not returned within the recursion depth that was granted. *)
Inductive Outcome (A : Type) :=
| Ret (a : A)
| Fail (err : Error)
| Panic (reason : string)
| Timeout.

Arguments Ret {A} a.
Arguments Fail {A} err.
Arguments Panic {A} reason.
Arguments Timeout {A}.

Section Effects.

Context {E : External}.

Record State := {
  world : World;
  depth : nat;
  trace : list Event
}.

Definition M (A : Type) : Type := State -> Outcome A * State.

Definition ret {A} (a : A) : M A := fun s => (Ret a, s).

Definition bind {A B} (m : M A) (f : A -> M B) : M B :=
  fun s =>
    match m s with
    | (Ret a, s') => f a s'
    | (Fail e, s') => (Fail e, s')
    | (Panic r, s') => (Panic r, s')
    | (Timeout, s') => (Timeout, s')
    end.

Definition fail {A} (e : Error) : M A := fun s => (Fail e, s).
Definition panic {A} (r : string) : M A := fun s => (Panic r, s).
Definition timeout {A} : M A := fun s => (Timeout, s).

(** A function result [(x, err)]. *)
Definition liftE {A} (r : Error + A) : M A :=
  match r with
  | inr a => ret a
  | inl e => fail e
  end.

(** A call into the outside world. *)
Definition io {A} (f : World -> (Error + A) * World) : M A :=
  fun s =>
    let '(r, w) := f (world s) in
    liftE r {| world := w; depth := depth s; trace := trace s |}.

(** [fmt.Printf] *)
Definition log (ev : nat -> Event) : M unit :=
  fun s =>
    (Ret tt,
     {| world := world s; depth := depth s;
        trace := trace s ++ [ev (depth s)] |}).

(** A recursive call of [dnsQuery]: one level deeper while it runs. *)
Definition nested {A} (m : M A) : M A :=
  fun s =>
    let '(o, s') :=
      m {| world := world s; depth := S (depth s); trace := trace s |} in
    (o, {| world := world s'; depth := depth s; trace := trace s' |}).

(** [x, err := f(); if err != nil { ... } else { ... }]: the caller looks
    at the error instead of returning it. Panics are not recovered. *)
Definition try {A} (m : M A) : M (Error + A) :=
  fun s =>
    match m s with
    | (Ret a, s') => (Ret (inr a), s')
    | (Fail e, s') => (Ret (inl e), s')
    | (Panic r, s') => (Panic r, s')
    | (Timeout, s') => (Timeout, s')
    end.

(** [for _, x := range l { body }] over loop-carried variables [acc]. *)
Fixpoint forEach {A T} (l : list A) (body : A -> T -> M T) (acc : T) : M T :=
  match l with
  | [] => ret acc
  | x :: l' => bind (body x acc) (forEach l' body)
  end.

(** [for k, x := range l { body }], counting from [k]. *)
Fixpoint forEachIndex {A T} (k : nat) (l : list A)
    (body : nat -> A -> T -> M T) (acc : T) : M T :=
  match l with
  | [] => ret acc
  | x :: l' => bind (body k x acc) (forEachIndex (S k) l' body)
  end.

End Effects.

Declare Scope resolver_scope.
Notation "x <- m ;; k" := (bind m (fun x => k))
  (at level 61, m at next level, right associativity) : resolver_scope.
Notation "' pat <- m ;; k" := (bind m (fun x => match x with pat => k end))
  (at level 61, pat pattern, m at next level, right associativity)
  : resolver_scope.
Notation "m ;;; k" := (bind m (fun _ => k))
  (at level 61, right associativity) : resolver_scope.
Local Open Scope resolver_scope.

Section Resolver.

Context {E : External}.


(* ===================================================================== *)
(** * Query transport: [outgoingDnsQuery] *)
(* ===================================================================== *)

(** Lines 39 to 46: the message that is packed and sent. *)
Definition queryMessage (randomNumber : Z) (question : Question) : Message :=
  {| M_Header :=
       {| ID := uint16 randomNumber; Response := false; OpCode := 0;
          Authoritative := false; Truncated := false;
          RecursionDesired := false; RecursionAvailable := false;
          RCode := RCodeSuccess |};
     Questions := [question];
     Answers := []; Authorities := []; Additionals := [] |}.

(** Lines 54 to 64: dial the servers in order and stop at the first
    connection; [conn] stays nil and [err] keeps the last error (or the
    nil error left by [Pack]) when none connects. *)
Fixpoint dialFirst (servers : list IP) (err : option Error) (w : World)
  : (option Conn * option Error) * World :=
  match servers with
  | [] => ((None, err), w)
  | server :: rest =>
      match Dial server w with
      | (inr conn, w') => ((Some conn, None), w')
      | (inl e, w') => dialFirst rest (Some e) w'
      end
  end.

(** [%s] applied to an error. *)
Definition showError (err : option Error) : string :=
  match err with
  | Some e => e
  | None => "%!s(<nil>)"
  end.

Definition outgoingDnsQuery (servers : list IP) (question : Question)
  : M (Parser * Header) :=
  log (fun d => EvOutgoing d question servers) ;;;
  let max := uint16 (Z.lnot 0) in
  randomNumber <- io (rand_Int max) ;;
  let message := queryMessage randomNumber question in
  buf <- liftE (Pack message) ;;
  '(conn, err) <- (fun s =>
      let '(r, w) := dialFirst servers None (world s) in
      (Ret r, {| world := w; depth := depth s; trace := trace s |})) ;;
  match conn with
  | None => fail ("Failed to make connection to servers: " ++ showError err)%string
  | Some conn => io (roundTrip conn buf)
  end.

(* ===================================================================== *)
(** * Resolution engine: [dnsQuery] *)
(* ===================================================================== *)

(** Lines 137 to 142. *)
Definition resolvedMessage (parsedAnswers : list Resource) : Message :=
  {| M_Header :=
       {| ID := 0; Response := true; OpCode := 0; Authoritative := false;
          Truncated := false; RecursionDesired := false;
          RecursionAvailable := false; RCode := RCodeSuccess |};
     Questions := []; Answers := parsedAnswers;
     Authorities := []; Additionals := [] |}.

(** Lines 153 to 157 and 226 to 230: a message that is zero except for
    its result code. *)
Definition rcodeMessage (rcode : Z) : Message :=
  {| M_Header :=
       {| ID := 0; Response := false; OpCode := 0; Authoritative := false;
          Truncated := false; RecursionDesired := false;
          RecursionAvailable := false; RCode := rcode |};
     Questions := []; Answers := [];
     Authorities := []; Additionals := [] |}.

(** [l[k] = v]; Go panics when [k] is out of range. *)
Fixpoint setIndex {A} (l : list A) (k : nat) (v : A) : option (list A) :=
  match l, k with
  | [], _ => None
  | _ :: l', O => Some (v :: l')
  | x :: l', S k' => option_map (cons x) (setIndex l' k' v)
  end.

(** Lines 161 to 168: one slot per authority record, filled with the
    target of the record when it is an NS record and left "" otherwise. *)
Definition collectNameservers (authorities : list Resource) : M (list string) :=
  forEachIndex 0 authorities
    (fun k authority nameservers =>
       if Z.eqb (RH_Type (R_Header authority)) TypeNS then
         match Body authority with
         | NSResource ns =>
             match setIndex nameservers k (Name_String ns) with
             | Some l => ret l
             | None => panic "index out of range"
             end
         | _ => panic "interface conversion: not *dnsmessage.NSResource"
         end
       else ret nameservers)
    (repeat "" (List.length authorities)).

(** Lines 177 to 193: the loop-carried pair is
    [(newServersFound, servers)]. *)
Definition matchGlue (additionals : list Resource) (nameservers : list string)
  : M (bool * list IP) :=
  forEach additionals
    (fun additional acc =>
       if Z.eqb (RH_Type (R_Header additional)) TypeA then
         forEach nameservers
           (fun nameserver '(newServersFound, servers) =>
              if String.eqb (Name_String (RH_Name (R_Header additional)))
                            nameserver
              then
                match Body additional with
                | AResource a => ret (true, servers ++ [a])
                | _ => panic "interface conversion: not *dnsmessage.AResource"
                end
              else ret (newServersFound, servers))
           acc
       else ret acc)
    (false, []).

(** [dnsmessage.MustNewName] *)
Definition MustNewName (name : string) : M Name :=
  match NewName name with
  | inr n => ret n
  | inl e => panic ("creating name: " ++ e)%string
  end.

(** Lines 214 to 218. *)
Definition appendAnswers (answers : list Resource) (servers : list IP)
  : M (list IP) :=
  forEach answers
    (fun answer servers =>
       if Z.eqb (RH_Type (R_Header answer)) TypeA then
         match Body answer with
         | AResource a => ret (servers ++ [a])
         | _ => panic "interface conversion: not *dnsmessage.AResource"
         end
       else ret servers)
    servers.

(** Lines 199 to 221; [sub] is the recursive call of [dnsQuery]. *)
Definition lookupNameservers (sub : list IP -> Question -> M Message)
    (nameservers : list string) (acc : bool * list IP) : M (bool * list IP) :=
  forEach nameservers
    (fun nameserver '(newServersFound, servers) =>
       if negb newServersFound then
         name <- MustNewName nameserver ;;
         r <- try (sub getRootServers
                     {| Q_Name := name; Q_Type := TypeA; Q_Class := ClassINET |}) ;;
         match r with
         | inl err =>
             log (fun d => EvWarning d nameserver err) ;;;
             ret (newServersFound, servers)
         | inr response =>
             servers <- appendAnswers (Answers response) servers ;;
             ret (true, servers)
         end
       else ret (newServersFound, servers))
    acc.

(** How one iteration of the loop of [dnsQuery] ends: with a [return], or
    at the end of the body with a new value for [servers]. *)
Inductive Step :=
| Return (m : Message)
| Continue (servers : list IP).

(** Lines 123 to 222: the body of the loop. *)
Definition dnsQuery_round (sub : list IP -> Question -> M Message)
    (servers : list IP) (question : Question) : M Step :=
  '(dnsAnswer, header) <- outgoingDnsQuery servers question ;;
  parsedAnswers <- liftE (AllAnswers dnsAnswer) ;;
  if Authoritative header then ret (Return (resolvedMessage parsedAnswers))
  else
    authorities <- liftE (AllAuthorities dnsAnswer) ;;
    if Nat.eqb (List.length authorities) 0 then
      ret (Return (rcodeMessage RCodeNameError))
    else
      nameservers <- collectNameservers authorities ;;
      additionals <- liftE (AllAdditionals dnsAnswer) ;;
      '(newServersFound, servers) <- matchGlue additionals nameservers ;;
      if negb newServersFound then
        '(_, servers) <- lookupNameservers sub nameservers
                           (newServersFound, servers) ;;
        ret (Continue servers)
      else ret (Continue servers).

(** Lines 121 to 230: [for i := 0; i < 3; i++], with [rounds] iterations
    left, and the [return] after the loop. *)
Fixpoint dnsQuery_loop (sub : list IP -> Question -> M Message)
    (rounds : nat) (servers : list IP) (question : Question) : M Message :=
  match rounds with
  | O => ret (rcodeMessage RCodeServerFailure)
  | S rounds' =>
      step <- dnsQuery_round sub servers question ;;
      match step with
      | Return m => ret m
      | Continue servers' => dnsQuery_loop sub rounds' servers' question
      end
  end.

(** [dnsQuery] calls itself without a bound on the nesting; [fuel] is the
    nesting that is granted, and a call that needs more ends in
    [Timeout]. *)
Fixpoint dnsQuery (fuel : nat) (servers : list IP) (question : Question)
  : M Message :=
  match fuel with
  | O => timeout
  | S fuel' =>
      log (fun d => EvQuestion d question) ;;;
      dnsQuery_loop (fun servers question =>
                       nested (dnsQuery fuel' servers question))
                    3 servers question
  end.

(** The recursive call at lines 201 to 205, as the loop body sees it. *)
Definition subResolution (fuel : nat) (servers : list IP) (question : Question)
  : M Message :=
  nested (dnsQuery fuel servers question).

(** The state right after the [Printf] of line 118. *)
Definition entered (question : Question) (s : State) : State :=
  {| world := world s; depth := depth s;
     trace := trace s ++ [EvQuestion (depth s) question] |}.

(* ===================================================================== *)
(** * Request handling: [handlePacket] *)
(* ===================================================================== *)

Definition handlePacket (fuel : nat) (addr : Addr) (buf : bytes) : M unit :=
  header <- liftE (Parser_Start buf) ;;
  question <- liftE (Parser_Question buf) ;;
  response <- dnsQuery fuel getRootServers question ;;
  let response := setID response (ID header) in
  responseBuf <- liftE (Pack response) ;;
  (fun s =>
     let '(err, w) := WriteTo responseBuf addr (world s) in
     (match err with
      | None => Ret tt
      | Some e => Fail e
      end,
      {| world := w; depth := depth s; trace := trace s |})).

End Resolver.

(* ===================================================================== *)
(** * Vocabulary of the properties *)
(* ===================================================================== *)

Definition evDepth (ev : Event) : nat :=
  match ev with
  | EvQuestion d _ => d
  | EvOutgoing d _ _ => d
  | EvWarning d _ _ => d
  end.

(** A call of [outgoingDnsQuery] made by the [dnsQuery] call of depth [d]
    itself. *)
Definition isOutgoingAt (d : nat) (ev : Event) : bool :=
  match ev with
  | EvOutgoing d' _ _ => Nat.eqb d' d
  | _ => false
  end.

Definition countOutgoing (d : nat) (evs : list Event) : nat :=
  List.length (filter (isOutgoingAt d) evs).

(** The entry of the nameserver list that an authority record yields. *)
Definition nameserverOf (authority : Resource) : string :=
  if Z.eqb (RH_Type (R_Header authority)) TypeNS then
    match Body authority with
    | NSResource ns => Name_String ns
    | _ => ""
    end
  else "".

(** The addresses that the A records of [additionals] contribute, one for
    each entry of [nameservers] equal to the owner name of the record. *)
Definition glueOf (nameservers : list string) (additional : Resource) : list IP :=
  if Z.eqb (RH_Type (R_Header additional)) TypeA then
    match Body additional with
    | AResource a =>
        map (fun _ => a)
            (filter (String.eqb (Name_String (RH_Name (R_Header additional))))
                    nameservers)
    | _ => []
    end
  else [].

Definition glueAddresses (additionals : list Resource) (nameservers : list string)
  : list IP :=
  flat_map (glueOf nameservers) additionals.

(** The addresses of the A records of an answer section. *)
Definition addressOf (answer : Resource) : list IP :=
  if Z.eqb (RH_Type (R_Header answer)) TypeA then
    match Body answer with
    | AResource a => [a]
    | _ => []
    end
  else [].

(** The delegated nameserver hostnames of an authority section: the
    targets of its NS records, in order. *)
Definition delegated (authorities : list Resource) : list string :=
  flat_map (fun r =>
              if Z.eqb (RH_Type (R_Header r)) TypeNS then
                match Body r with
                | NSResource ns => [Name_String ns]
                | _ => []
                end
              else [])
           authorities.

(** Glue as the specification words it: every A record of the additional
    section contributes its address once for every delegated hostname
    that is, byte for byte, its owner name. *)
Definition glueSpec (additionals authorities : list Resource) : list IP :=
  flat_map (fun a =>
              if Z.eqb (RH_Type (R_Header a)) TypeA then
                match Body a with
                | AResource ip =>
                    flat_map (fun hostname =>
                                if String.eqb
                                     (Name_String (RH_Name (R_Header a)))
                                     hostname
                                then [ip] else [])
                             (delegated authorities)
                | _ => []
                end
              else [])
           additionals.

Definition isNil {A} (l : list A) : bool :=
  match l with
  | [] => true
  | _ => false
  end.

Definition answersWf (m : Message) : Prop :=
  forallb wfResource (Answers m) = true.

(** How often the byte [sep] occurs in [s]. *)
Fixpoint occurrences (sep : ascii) (s : string) : nat :=
  match s with
  | EmptyString => 0
  | String c s' =>
      if Ascii.eqb c sep then S (occurrences sep s') else occurrences sep s'
  end.

(** The message that [handlePacket] packs for a resolved question. *)
Definition resolvedReply (id : Z) (answers : list Resource) : Message :=
  {| M_Header :=
       {| ID := id; Response := true; OpCode := 0; Authoritative := false;
          Truncated := false; RecursionDesired := false;
          RecursionAvailable := false; RCode := RCodeSuccess |};
     Questions := []; Answers := answers;
     Authorities := []; Additionals := [] |}.

(** The three messages that [dnsQuery] builds. *)
Definition engineMessage (m : Message) : Prop :=
  (exists answers,
      forallb wfResource answers = true /\ m = resolvedMessage answers)
  \/ m = rcodeMessage RCodeNameError
  \/ m = rcodeMessage RCodeServerFailure.

Definition stepWf (step : Step) : Prop :=
  match step with
  | Return m => engineMessage m
  | Continue _ => True
  end.

Section Relations.

Context {E : External}.

(** [continues sub question k servers s servers' s']: starting with
    [servers] in state [s], the loop body runs [k] times, each time to its
    end, and leaves [servers'] and [s']. *)
Inductive continues (sub : list IP -> Question -> M Message)
    (question : Question)
  : nat -> list IP -> State -> list IP -> State -> Prop :=
| continues_O : forall servers s, continues sub question 0 servers s servers s
| continues_S : forall k servers s servers1 s1 servers' s',
    dnsQuery_round sub servers question s = (Ret (Continue servers1), s1) ->
    continues sub question k servers1 s1 servers' s' ->
    continues sub question (S k) servers s servers' s'.

(** [allFail sub names s s']: from state [s], the sub-resolutions of
    [names], made in this order, all return an error, each followed by the
    warning of line 209, and leave state [s']. *)
Inductive allFail (sub : list IP -> Question -> M Message)
  : list string -> State -> State -> Prop :=
| allFail_nil : forall s, allFail sub [] s s
| allFail_cons : forall name names s err s1 s',
    sub getRootServers
        {| Q_Name := {| Data := name |}; Q_Type := TypeA; Q_Class := ClassINET |}
        s = (Fail err, s1) ->
    allFail sub names
            {| world := world s1; depth := depth s1;
               trace := trace s1 ++ [EvWarning (depth s1) name err] |} s' ->
    allFail sub (name :: names) s s'.

(** [logs n m]: [m] keeps the depth, only appends events to the trace,
    none of them shallower than the current depth, and at most [n] of them
    are calls of [outgoingDnsQuery] at the current depth. *)
Definition logs {A} (n : nat) (m : M A) : Prop :=
  forall s o s', m s = (o, s') ->
    depth s' = depth s /\
    exists evs, trace s' = trace s ++ evs /\
                Forall (fun ev => depth s <= evDepth ev) evs /\
                countOutgoing (depth s) evs <= n.

(** [post m P]: [m] does not panic, and a value it returns satisfies [P]. *)
Definition post {A} (m : M A) (P : A -> Prop) : Prop :=
  forall s o s', m s = (o, s') ->
    match o with
    | Ret a => P a
    | Panic _ => False
    | _ => True
    end.

(** [emits P m]: [m] keeps the depth and only appends events to the
    trace, each of which satisfies [P] at the depth of the caller. *)
Definition emits {A} (P : nat -> Event -> Prop) (m : M A) : Prop :=
  forall s o s', m s = (o, s') ->
    depth s' = depth s /\
    exists evs, trace s' = trace s ++ evs /\ Forall (P (depth s)) evs.

(** What a call of [dnsQuery] for [question] at depth [d] may print: its
    own question and its own transport calls, all for [question]; its own
    warnings; and anything deeper, where every question is an A question
    of class INET. *)
Definition ownOrDeeper (question : Question) (d : nat) (ev : Event) : Prop :=
  match ev with
  | EvQuestion d' q' =>
      (d' = d /\ q' = question)
      \/ (d < d' /\ Q_Type q' = TypeA /\ Q_Class q' = ClassINET)
  | EvOutgoing d' q' _ => (d' = d /\ q' = question) \/ d < d'
  | EvWarning d' _ _ => d <= d'
  end.

(** Lines 129 to 222: the loop body after the call of the transport. *)
Definition afterTransport (sub : list IP -> Question -> M Message)
    (dnsAnswer : Parser) (header : Header) : M Step :=
  bind (liftE (AllAnswers dnsAnswer)) (fun parsedAnswers =>
  if Authoritative header then ret (Return (resolvedMessage parsedAnswers))
  else
    bind (liftE (AllAuthorities dnsAnswer)) (fun authorities =>
    if Nat.eqb (List.length authorities) 0 then
      ret (Return (rcodeMessage RCodeNameError))
    else
      bind (collectNameservers authorities) (fun nameservers =>
      bind (liftE (AllAdditionals dnsAnswer)) (fun additionals =>
      bind (matchGlue additionals nameservers) (fun found =>
      if negb (fst found) then
        bind (lookupNameservers sub nameservers found) (fun found' =>
        ret (Continue (snd found')))
      else ret (Continue (snd found))))))).

(** [returns m P]: a value that [m] returns satisfies [P]. *)
Definition returns {A} (m : M A) (P : A -> Prop) : Prop :=
  forall s a s', m s = (Ret a, s') -> P a.

(** [dialsFail servers err w err' w']: from world [w], dialling each of
    [servers] in order fails; [err'] is the last error (or [err] when
    there is no server) and [w'] the world afterwards. *)
Inductive dialsFail
  : list IP -> option Error -> World -> option Error -> World -> Prop :=
| dialsFail_nil : forall err w, dialsFail [] err w err w
| dialsFail_cons : forall server rest err w e w1 err' w',
    Dial server w = (inl e, w1) ->
    dialsFail rest (Some e) w1 err' w' ->
    dialsFail (server :: rest) err w err' w'.

End Relations.

(* ===================================================================== *)
(** * A scripted environment *)
(* ===================================================================== *)

(** An implementation of [External] for running the resolver on concrete
    inputs: upstream replies are served from a script, in order, and the
    codec is a small stand-in that keeps the identifier, the response flag,
    the result code and the question names. *)

Record Net := {
  replies : list (Error + (Parser * Header));
  thereafter : option (Parser * Header);
  seed : Z;
  sent : list (string * bytes)
}.

Definition byteOfZ (z : Z) : Byte.byte :=
  match Byte.of_N (Z.to_N (z mod 256)) with
  | Some b => b
  | None => Byte.x00
  end.

Definition zOfByte (b : Byte.byte) : Z := Z.of_N (Byte.to_N b).

(** The real [Pack] refuses a name that does not end with a dot. *)
Fixpoint canonical (s : string) : bool :=
  match s with
  | EmptyString => false
  | String c EmptyString => Ascii.eqb c "."
  | String _ s' => canonical s'
  end.

Definition scriptedPack (m : Message) : Error + bytes :=
  if forallb (fun q => canonical (Data (Q_Name q))) (Questions m) then
    inr ([byteOfZ (ID (M_Header m) / 256); byteOfZ (ID (M_Header m));
          byteOfZ (if Response (M_Header m) then 1 else 0);
          byteOfZ (RCode (M_Header m))]
         ++ flat_map (fun q => list_byte_of_string (Data (Q_Name q)))
                     (Questions m))
  else inl "name is not in canonical format (it must end with a .)".

Definition scriptedStart (buf : bytes) : Error + Header :=
  match buf with
  | hi :: lo :: fl :: rc :: _ =>
      inr {| ID := zOfByte hi * 256 + zOfByte lo;
             Response := negb (Z.eqb (zOfByte fl) 0);
             OpCode := 0; Authoritative := false; Truncated := false;
             RecursionDesired := false; RecursionAvailable := false;
             RCode := zOfByte rc |}
  | _ => inl "insufficient data for base length type"
  end.

Definition scriptedQuestion (buf : bytes) : Error + Question :=
  match buf with
  | _ :: _ :: _ :: _ :: name =>
      inr {| Q_Name := {| Data := string_of_list_byte name |};
             Q_Type := TypeA; Q_Class := ClassINET |}
  | _ => inl "insufficient data for base length type"
  end.

Definition scriptedRand (max : Z) (w : Net) : (Error + Z) * Net :=
  (inr (seed w mod max)%Z,
   {| replies := replies w; thereafter := thereafter w;
      seed := (seed w + 1)%Z; sent := sent w |}).

Definition scriptedDial (server : IP) (w : Net) : (Error + IP) * Net :=
  match server with
  | [] => (inl "dial udp: missing address", w)
  | _ => (inr server, w)
  end.

Definition decoded (r : Error + (Parser * Header)) : Error + (Parser * Header) :=
  match r with
  | inr (p, h) =>
      if wfParser p then inr (p, h)
      else inl "Parser start error unpacking header"
  | inl e => inl e
  end.

Definition scriptedRoundTrip (conn : IP) (buf : bytes) (w : Net)
  : (Error + (Parser * Header)) * Net :=
  match replies w with
  | r :: rest =>
      (decoded r,
       {| replies := rest; thereafter := thereafter w;
          seed := seed w; sent := sent w |})
  | [] =>
      match thereafter w with
      | Some ph => (decoded (inr ph), w)
      | None => (inl "read udp: i/o timeout", w)
      end
  end.

Definition scriptedWriteTo (buf : bytes) (addr : string) (w : Net)
  : option Error * Net :=
  (None,
   {| replies := replies w; thereafter := thereafter w;
      seed := seed w; sent := sent w ++ [(addr, buf)] |}).

#[export] Instance scripted : External.
Proof.
  refine {| World := Net; Conn := IP; Addr := string;
            rand_Int := scriptedRand; Pack := scriptedPack;
            Dial := scriptedDial; roundTrip := scriptedRoundTrip;
            Parser_Start := scriptedStart;
            Parser_Question := scriptedQuestion;
            WriteTo := scriptedWriteTo |}.
  - intros max w n w' Hmax H. unfold scriptedRand in H.
    inversion H; subst. apply Z.mod_pos_bound. exact Hmax.
  - intros conn buf w p h w' H. unfold scriptedRoundTrip in H.
    assert (Hd : forall r, decoded r = inr (p, h) -> wfParser p = true).
    { intros [e | [p0 h0]]; simpl; [discriminate |].
      destruct (wfParser p0) eqn:Hwf; [| discriminate].
      intros Heq. inversion Heq; subst. exact Hwf. }
    destruct (replies w) as [| r rest].
    + destruct (thereafter w) as [ph |]; [| discriminate].
      injection H as H1 _. exact (Hd (inr ph) H1).
    + injection H as H1 _. exact (Hd r H1).
Defined.

(** ** Sample data *)

Definition nm (s : string) : Name := {| Data := s |}.

Definition questionA (s : string) : Question :=
  {| Q_Name := nm s; Q_Type := TypeA; Q_Class := ClassINET |}.

Definition rrA (owner : string) (ip : IP) : Resource :=
  {| R_Header := {| RH_Name := nm owner; RH_Type := TypeA;
                    RH_Class := ClassINET; RH_TTL := 3600 |};
     Body := AResource ip |}.

Definition rrNS (owner target : string) : Resource :=
  {| R_Header := {| RH_Name := nm owner; RH_Type := TypeNS;
                    RH_Class := ClassINET; RH_TTL := 3600 |};
     Body := NSResource (nm target) |}.

Definition rrSOA (owner : string) : Resource :=
  {| R_Header := {| RH_Name := nm owner; RH_Type := TypeSOA;
                    RH_Class := ClassINET; RH_TTL := 3600 |};
     Body := SOAResource (nm "ns.icann.org.") (nm "noc.dns.icann.org.")
                         2024 7200 3600 1209600 3600 |}.

Definition upstream (aa : bool) (answers authorities additionals : list Resource)
  : Parser * Header :=
  ({| P_Answers := inr answers; P_Authorities := inr authorities;
      P_Additionals := inr additionals |},
   {| ID := 4711; Response := true; OpCode := 0; Authoritative := aa;
      Truncated := false; RecursionDesired := false;
      RecursionAvailable := false; RCode := RCodeSuccess |}).

(** The upstream replies of [script], in this order, and then silence. *)
Definition netOf (script : list (Parser * Header)) : Net :=
  {| replies := map inr script; thereafter := None; seed := 65534;
     sent := [] |}.

Definition start (w : Net) : State :=
  {| world := w; depth := 0; trace := [] |}.

(** ** Sample upstream replies *)

(** The referral of the root for "com." with glue, and the authoritative
    answer of the delegated server. *)
Definition referralWithGlue : Parser * Header :=
  upstream false []
           [rrNS "com." "a.iana-servers.net."]
           [rrA "a.iana-servers.net." [199; 43; 135; 53]%Z].

Definition authoritativeAnswer : Parser * Header :=
  upstream true [rrA "example.com." [93; 184; 216; 34]%Z] [] [].

(** A reply that is not authoritative and has only an SOA record in its
    authority section, as in a negative answer. *)
Definition soaOnly : Parser * Header :=
  upstream false [] [rrSOA "com."] [].

(** A referral without glue. *)
Definition leanReferral : Parser * Header :=
  upstream false []
           [rrNS "com." "ns1.example.net."; rrNS "com." "ns2.example.net."]
           [].

(** A reply that is not authoritative and has empty sections. *)
Definition emptyReply : Parser * Header :=
  upstream false [] [] [].

(** Replies of which one section does not decode. *)
Definition brokenAnswers : Parser * Header :=
  ({| P_Answers := inl "unpacking Answer: insufficient data";
      P_Authorities := inr []; P_Additionals := inr [] |},
   snd authoritativeAnswer).

Definition brokenAuthorities : Parser * Header :=
  ({| P_Answers := inr [];
      P_Authorities := inl "unpacking Authority: insufficient data";
      P_Additionals := inr [] |},
   snd emptyReply).

Definition brokenAdditionals : Parser * Header :=
  ({| P_Answers := inr [];
      P_Authorities := inr [rrNS "com." "a.iana-servers.net."];
      P_Additionals := inl "unpacking Additional: insufficient data" |},
   snd emptyReply).

(** An upstream that answers every query with a referral without glue. *)
Definition chainReply : Parser * Header :=
  ({| P_Answers := inr [];
      P_Authorities := inr [rrNS "net." "ns.example.net."];
      P_Additionals := inr [] |},
   {| ID := 4711; Response := true; OpCode := 0; Authoritative := false;
      Truncated := false; RecursionDesired := false;
      RecursionAvailable := false; RCode := RCodeSuccess |}).

Definition chainNet (n : Z) : Net :=
  {| replies := []; thereafter := Some chainReply; seed := n; sent := [] |}.

(** A client datagram in the format of the scripted codec: identifier
    0x1234, a query, for "example.com.". *)
Definition clientDatagram : bytes :=
  map byteOfZ [18; 52; 0; 0]%Z ++ list_byte_of_string "example.com.".

Definition isQuestionEvent (ev : Event) : bool :=
  match ev with
  | EvQuestion _ _ => true
  | _ => false
  end.

(** The first server can be dialled in the scripted environment. *)
Definition dialable (servers : list IP) : bool :=
  match servers with
  | (_ :: _) :: _ => true
  | _ => false
  end.

(* ===================================================================== *)
(** * Properties *)
(* ===================================================================== *)

Section Properties.

Context {E : External}.

(** ** What a computation adds to the trace *)

Lemma countOutgoing_app d evs1 evs2 :
  countOutgoing d (evs1 ++ evs2) = countOutgoing d evs1 + countOutgoing d evs2.
Proof.
  unfold countOutgoing. rewrite filter_app, length_app. reflexivity.
Qed.

Lemma countOutgoing_deeper d evs :
  Forall (fun ev => S d <= evDepth ev) evs -> countOutgoing d evs = 0.
Proof.
  unfold countOutgoing. induction 1 as [| ev evs Hev _ IH]; [reflexivity |].
  simpl. destruct ev as [d' q | d' q sv | d' n e]; simpl in *; try exact IH.
  destruct (Nat.eqb_spec d' d); [lia | exact IH].
Qed.

Ltac no_events :=
  split; [reflexivity |];
  exists []; split; [symmetry; apply app_nil_r |];
  split; [apply Forall_nil | unfold countOutgoing; simpl; lia].

Lemma logs_silent {A} (m : M A) n :
  (forall s, exists o, m s = (o, s)) -> logs n m.
Proof.
  intros H s o s' Hm. destruct (H s) as [o' Ho]. rewrite Ho in Hm.
  inversion Hm; subst. no_events.
Qed.

Lemma logs_ret {A} (a : A) n : logs n (ret a).
Proof. apply logs_silent. intros s. eexists. reflexivity. Qed.

Lemma logs_fail {A} e n : logs n (@fail _ A e).
Proof. apply logs_silent. intros s. eexists. reflexivity. Qed.

Lemma logs_panic {A} r n : logs n (@panic _ A r).
Proof. apply logs_silent. intros s. eexists. reflexivity. Qed.

Lemma logs_timeout {A} n : logs n (@timeout _ A).
Proof. apply logs_silent. intros s. eexists. reflexivity. Qed.

Lemma logs_liftE {A} (r : Error + A) n : logs n (liftE r).
Proof. destruct r; [apply logs_fail | apply logs_ret]. Qed.

Lemma logs_world {A} (f : World -> Outcome A * World) n :
  logs n (fun s => let '(o, w) := f (world s) in
                   (o, {| world := w; depth := depth s; trace := trace s |})).
Proof.
  intros s o s' H. destruct (f (world s)) as [o' w]. inversion H; subst.
  simpl. no_events.
Qed.

Lemma logs_io {A} (f : World -> (Error + A) * World) n : logs n (io f).
Proof.
  intros s o s' H. unfold io in H. destruct (f (world s)) as [r w].
  destruct r; inversion H; subst; simpl; no_events.
Qed.

Lemma logs_weaken {A} (m : M A) n n' : n <= n' -> logs n m -> logs n' m.
Proof.
  intros Hle H s o s' Hm. destruct (H s o s' Hm) as [Hd [evs [Ht [Hf Hc]]]].
  split; [exact Hd |]. exists evs. repeat split; try assumption. lia.
Qed.

Lemma logs_bind {A B} (m : M A) (f : A -> M B) n1 n2 :
  logs n1 m -> (forall a, logs n2 (f a)) -> logs (n1 + n2) (bind m f).
Proof.
  intros Hm Hf s o s' H. unfold bind in H.
  destruct (m s) as [o1 s1] eqn:Em.
  destruct (Hm s o1 s1 Em) as [Hd [evs1 [Ht [Hall Hc]]]].
  destruct o1 as [a | e | r |].
  - destruct (Hf a s1 o s' H) as [Hd2 [evs2 [Ht2 [Hall2 Hc2]]]].
    rewrite Hd in *. split; [exact Hd2 |].
    exists (evs1 ++ evs2). rewrite Ht2, Ht, app_assoc.
    repeat split.
    + apply Forall_app. split; assumption.
    + rewrite countOutgoing_app. lia.
  - inversion H; subst. split; [exact Hd |]. exists evs1.
    repeat split; try assumption. lia.
  - inversion H; subst. split; [exact Hd |]. exists evs1.
    repeat split; try assumption. lia.
  - inversion H; subst. split; [exact Hd |]. exists evs1.
    repeat split; try assumption. lia.
Qed.

Lemma logs_bind0 {A B} (m : M A) (f : A -> M B) n :
  logs 0 m -> (forall a, logs n (f a)) -> logs n (bind m f).
Proof. intros Hm Hf. exact (logs_bind m f 0 n Hm Hf). Qed.

Lemma logs_log_outgoing question servers :
  logs 1 (log (fun d => EvOutgoing d question servers)).
Proof.
  intros s o s' H. inversion H; subst. simpl. split; [reflexivity |].
  eexists. split; [reflexivity |]. split.
  - constructor; [simpl; lia | constructor].
  - unfold countOutgoing. simpl. rewrite Nat.eqb_refl. simpl. lia.
Qed.

Lemma logs_log_question question n :
  logs n (log (fun d => EvQuestion d question)).
Proof.
  intros s o s' H. inversion H; subst. simpl. split; [reflexivity |].
  eexists. split; [reflexivity |]. split.
  - constructor; [simpl; lia | constructor].
  - unfold countOutgoing. simpl. lia.
Qed.

Lemma logs_log_warning nameserver err n :
  logs n (log (fun d => EvWarning d nameserver err)).
Proof.
  intros s o s' H. inversion H; subst. simpl. split; [reflexivity |].
  eexists. split; [reflexivity |]. split.
  - constructor; [simpl; lia | constructor].
  - unfold countOutgoing. simpl. lia.
Qed.

Lemma logs_try {A} (m : M A) n : logs n m -> logs n (try m).
Proof.
  intros Hm s o s' H. unfold try in H. destruct (m s) as [o1 s1] eqn:Em.
  specialize (Hm s o1 s1 Em).
  destruct o1; inversion H; subst; exact Hm.
Qed.

(** Whatever a nested call prints is deeper than the caller. *)
Lemma logs_nested {A} (m : M A) n k : logs n m -> logs k (nested m).
Proof.
  intros Hm s o s' H. unfold nested in H.
  destruct (m _) as [o1 s1] eqn:Em.
  destruct (Hm _ o1 s1 Em) as [Hd [evs [Ht [Hall _]]]].
  inversion H; subst. simpl in *. split; [reflexivity |].
  exists evs. split; [exact Ht |]. split.
  - eapply Forall_impl; [| exact Hall]. simpl. intros. lia.
  - rewrite countOutgoing_deeper; [lia | exact Hall].
Qed.

Lemma logs_forEach {A T} (l : list A) (body : A -> T -> M T) acc :
  (forall x acc, logs 0 (body x acc)) -> logs 0 (forEach l body acc).
Proof.
  intros Hb. revert acc. induction l as [| x l IH]; intros acc; simpl.
  - apply logs_ret.
  - apply logs_bind0; [apply Hb | exact IH].
Qed.

Lemma logs_forEachIndex {A T} (l : list A) (body : nat -> A -> T -> M T) k acc :
  (forall k x acc, logs 0 (body k x acc)) -> logs 0 (forEachIndex k l body acc).
Proof.
  intros Hb. revert k acc. induction l as [| x l IH]; intros k acc; simpl.
  - apply logs_ret.
  - apply logs_bind0; [apply Hb | apply IH].
Qed.

Lemma logs_outgoingDnsQuery servers question :
  logs 1 (outgoingDnsQuery servers question).
Proof.
  unfold outgoingDnsQuery.
  apply (logs_bind _ _ 1 0); [apply logs_log_outgoing |]. intros _.
  apply logs_bind0; [apply logs_io |]. intros randomNumber.
  apply logs_bind0; [apply logs_liftE |]. intros buf.
  apply logs_bind0.
  - intros s o s' H.
    destruct (dialFirst servers None (world s)) as [r w].
    inversion H; subst. simpl. no_events.
  - intros [[conn |] err]; [apply logs_io | apply logs_fail].
Qed.

Lemma logs_MustNewName name n : logs n (MustNewName name).
Proof.
  unfold MustNewName. destruct (NewName name); [apply logs_panic | apply logs_ret].
Qed.

Lemma logs_appendAnswers answers servers : logs 0 (appendAnswers answers servers).
Proof.
  unfold appendAnswers. apply logs_forEach. intros answer acc.
  destruct (Z.eqb _ _); [| apply logs_ret].
  destruct (Body answer); first [apply logs_ret | apply logs_panic].
Qed.

Lemma logs_collectNameservers authorities :
  logs 0 (collectNameservers authorities).
Proof.
  unfold collectNameservers. apply logs_forEachIndex. intros k authority acc.
  destruct (Z.eqb _ _); [| apply logs_ret].
  destruct (Body authority); try apply logs_panic.
  destruct (setIndex _ _ _); [apply logs_ret | apply logs_panic].
Qed.

Lemma logs_matchGlue additionals nameservers :
  logs 0 (matchGlue additionals nameservers).
Proof.
  unfold matchGlue. apply logs_forEach. intros additional acc.
  destruct (Z.eqb _ _); [| apply logs_ret].
  apply logs_forEach. intros nameserver [found servers].
  destruct (String.eqb _ _); [| apply logs_ret].
  destruct (Body additional); first [apply logs_ret | apply logs_panic].
Qed.

Lemma logs_lookupNameservers sub nameservers acc :
  (forall servers question, logs 0 (sub servers question)) ->
  logs 0 (lookupNameservers sub nameservers acc).
Proof.
  intros Hsub. unfold lookupNameservers. apply logs_forEach.
  intros nameserver [found servers].
  destruct (negb found); [| apply logs_ret].
  apply logs_bind0; [apply logs_MustNewName |]. intros name.
  apply logs_bind0; [apply logs_try, Hsub |]. intros [err | response].
  - apply logs_bind0; [apply logs_log_warning | intros _; apply logs_ret].
  - apply logs_bind0; [apply logs_appendAnswers | intros; apply logs_ret].
Qed.

Lemma logs_dnsQuery_round sub servers question :
  (forall servers question, logs 0 (sub servers question)) ->
  logs 1 (dnsQuery_round sub servers question).
Proof.
  intros Hsub. unfold dnsQuery_round.
  apply (logs_bind _ _ 1 0); [apply logs_outgoingDnsQuery |].
  intros [dnsAnswer header].
  apply logs_bind0; [apply logs_liftE |]. intros parsedAnswers.
  destruct (Authoritative header); [apply logs_ret |].
  apply logs_bind0; [apply logs_liftE |]. intros authorities.
  destruct (Nat.eqb _ _); [apply logs_ret |].
  apply logs_bind0; [apply logs_collectNameservers |]. intros nameservers.
  apply logs_bind0; [apply logs_liftE |]. intros additionals.
  apply logs_bind0; [apply logs_matchGlue |]. intros [found glue].
  destruct (negb found); [| apply logs_ret].
  apply logs_bind0; [apply logs_lookupNameservers, Hsub |].
  intros [found' servers']. apply logs_ret.
Qed.

Lemma logs_dnsQuery_loop sub rounds servers question :
  (forall servers question, logs 0 (sub servers question)) ->
  logs rounds (dnsQuery_loop sub rounds servers question).
Proof.
  intros Hsub. revert servers.
  induction rounds as [| rounds IH]; intros servers; simpl.
  - apply logs_ret.
  - apply (logs_bind _ _ 1 rounds); [apply logs_dnsQuery_round, Hsub |].
    intros [m | servers']; [apply logs_ret | apply IH].
Qed.

Lemma dnsQuery_S fuel servers question :
  dnsQuery (S fuel) servers question =
  (log (fun d => EvQuestion d question) ;;;
   dnsQuery_loop (subResolution fuel) 3 servers question).
Proof. reflexivity. Qed.

Lemma dnsQuery_entered fuel servers question s :
  dnsQuery (S fuel) servers question s =
  dnsQuery_loop (subResolution fuel) 3 servers question (entered question s).
Proof. reflexivity. Qed.

(** A call of [dnsQuery] makes at most three calls of [outgoingDnsQuery]
    itself, whatever its sub-resolutions do. *)
Lemma logs_dnsQuery fuel servers question :
  logs 3 (dnsQuery fuel servers question).
Proof.
  revert servers question.
  induction fuel as [| fuel IH]; intros servers question.
  - apply logs_timeout.
  - rewrite dnsQuery_S.
    apply logs_bind0; [apply logs_log_question |]. intros _.
    apply logs_dnsQuery_loop. intros servers' question'.
    apply (logs_nested _ 3 0). apply IH.
Qed.

(** ** The loops over decoded sections, as list functions *)

Lemma wf_NS_body r :
  wfResource r = true -> Z.eqb (RH_Type (R_Header r)) TypeNS = true ->
  exists ns, Body r = NSResource ns /\ wfName ns = true.
Proof.
  unfold wfResource, wfBody. intros Hwf Hty.
  apply andb_prop in Hwf. destruct Hwf as [_ Hb].
  apply Z.eqb_eq in Hty. rewrite Hty in Hb.
  destruct (Body r) as [a | ns | | ]; simpl in Hb; try discriminate.
  exists ns. split; [reflexivity | exact Hb].
Qed.

Lemma wf_A_body r :
  wfResource r = true -> Z.eqb (RH_Type (R_Header r)) TypeA = true ->
  exists a, Body r = AResource a.
Proof.
  unfold wfResource, wfBody. intros Hwf Hty.
  apply andb_prop in Hwf. destruct Hwf as [_ Hb].
  apply Z.eqb_eq in Hty. rewrite Hty in Hb.
  destruct (Body r) as [a | ns | | ]; simpl in Hb; try discriminate.
  exists a. reflexivity.
Qed.

Lemma setIndex_app {A} (done : list A) x rest v :
  setIndex (done ++ x :: rest) (List.length done) v = Some (done ++ v :: rest).
Proof.
  induction done as [| y done IH]; simpl; [reflexivity |].
  rewrite IH. reflexivity.
Qed.

Lemma collectNameservers_from authorities : forall done s,
  forallb wfResource authorities = true ->
  forEachIndex (List.length done) authorities
    (fun k authority nameservers =>
       if Z.eqb (RH_Type (R_Header authority)) TypeNS then
         match Body authority with
         | NSResource ns =>
             match setIndex nameservers k (Name_String ns) with
             | Some l => ret l
             | None => panic "index out of range"
             end
         | _ => panic "interface conversion: not *dnsmessage.NSResource"
         end
       else ret nameservers)
    (done ++ repeat "" (List.length authorities)) s
  = (Ret (done ++ map nameserverOf authorities), s).
Proof.
  induction authorities as [| r rs IH]; intros done s Hwf; [reflexivity |].
  simpl in Hwf. apply andb_prop in Hwf. destruct Hwf as [Hr Hrs].
  cbn [forEachIndex List.length repeat map]. unfold bind at 1.
  unfold nameserverOf at 1.
  destruct (Z.eqb (RH_Type (R_Header r)) TypeNS) eqn:Hty.
  - destruct (wf_NS_body r Hr Hty) as [ns [Hb _]]. rewrite Hb.
    rewrite setIndex_app. unfold ret at 1.
    specialize (IH (done ++ [Name_String ns]) s Hrs).
    rewrite length_app, Nat.add_comm in IH. simpl in IH.
    rewrite <- !app_assoc in IH. simpl in IH. exact IH.
  - unfold ret at 1.
    specialize (IH (done ++ [""]) s Hrs).
    rewrite length_app, Nat.add_comm in IH. simpl in IH.
    rewrite <- !app_assoc in IH. simpl in IH. exact IH.
Qed.

Lemma collectNameservers_eq authorities s :
  forallb wfResource authorities = true ->
  collectNameservers authorities s = (Ret (map nameserverOf authorities), s).
Proof.
  intros Hwf. exact (collectNameservers_from authorities [] s Hwf).
Qed.

Lemma matchGlue_inner (a : IP) owner nameservers : forall found servers s,
  forEach nameservers
    (fun nameserver '(newServersFound, servers) =>
       if String.eqb owner nameserver
       then ret (true, servers ++ [a])
       else ret (newServersFound, servers))
    (found, servers) s
  = (Ret (found || negb (isNil (filter (String.eqb owner) nameservers)),
          servers ++ map (fun _ => a) (filter (String.eqb owner) nameservers)),
     s).
Proof.
  induction nameservers as [| n ns IH]; intros found servers s.
  - simpl. unfold ret. rewrite orb_false_r, app_nil_r. reflexivity.
  - cbn [forEach filter]. unfold bind at 1.
    destruct (String.eqb owner n).
    + unfold ret at 1. rewrite IH. simpl. rewrite orb_true_r.
      rewrite <- app_assoc. reflexivity.
    + unfold ret at 1. apply IH.
Qed.

Lemma isNil_app {A} (l1 l2 : list A) :
  isNil (l1 ++ l2) = isNil l1 && isNil l2.
Proof. destruct l1; reflexivity. Qed.

Lemma matchGlue_from additionals nameservers : forall found servers s,
  forallb wfResource additionals = true ->
  forEach additionals
    (fun additional acc =>
       if Z.eqb (RH_Type (R_Header additional)) TypeA then
         forEach nameservers
           (fun nameserver '(newServersFound, servers) =>
              if String.eqb (Name_String (RH_Name (R_Header additional)))
                            nameserver
              then
                match Body additional with
                | AResource a => ret (true, servers ++ [a])
                | _ => panic "interface conversion: not *dnsmessage.AResource"
                end
              else ret (newServersFound, servers))
           acc
       else ret acc)
    (found, servers) s
  = (Ret (found || negb (isNil (glueAddresses additionals nameservers)),
          servers ++ glueAddresses additionals nameservers), s).
Proof.
  induction additionals as [| r rs IH]; intros found servers s Hwf.
  - simpl. unfold ret. rewrite orb_false_r, app_nil_r. reflexivity.
  - simpl in Hwf. apply andb_prop in Hwf. destruct Hwf as [Hr Hrs].
    cbn [forEach]. unfold bind at 1.
    unfold glueAddresses. cbn [flat_map]. fold (glueAddresses rs nameservers).
    unfold glueOf.
    destruct (Z.eqb (RH_Type (R_Header r)) TypeA) eqn:Hty.
    + destruct (wf_A_body r Hr Hty) as [a Hb]. rewrite Hb.
      rewrite matchGlue_inner. rewrite (IH _ _ s Hrs).
      rewrite isNil_app, negb_andb, orb_assoc, app_assoc.
      destruct (filter _ nameservers); reflexivity.
    + unfold ret at 1. rewrite (IH _ _ s Hrs). reflexivity.
Qed.

Lemma matchGlue_eq additionals nameservers s :
  forallb wfResource additionals = true ->
  matchGlue additionals nameservers s
  = (Ret (negb (isNil (glueAddresses additionals nameservers)),
          glueAddresses additionals nameservers), s).
Proof.
  intros Hwf. exact (matchGlue_from additionals nameservers false [] s Hwf).
Qed.

Lemma appendAnswers_eq answers : forall servers s,
  forallb wfResource answers = true ->
  appendAnswers answers servers s
  = (Ret (servers ++ flat_map addressOf answers), s).
Proof.
  unfold appendAnswers.
  induction answers as [| r rs IH]; intros servers s Hwf.
  - simpl. unfold ret. rewrite app_nil_r. reflexivity.
  - simpl in Hwf. apply andb_prop in Hwf. destruct Hwf as [Hr Hrs].
    cbn [forEach flat_map]. unfold bind at 1. unfold addressOf at 1.
    destruct (Z.eqb (RH_Type (R_Header r)) TypeA) eqn:Hty.
    + destruct (wf_A_body r Hr Hty) as [a Hb]. rewrite Hb.
      unfold ret at 1. rewrite (IH _ s Hrs), <- app_assoc. reflexivity.
    + unfold ret at 1. rewrite (IH _ s Hrs). reflexivity.
Qed.

Lemma MustNewName_eq name s :
  String.length name <= nameLen ->
  MustNewName name s = (Ret {| Data := name |}, s).
Proof.
  intros Hlen. unfold MustNewName, NewName.
  destruct (Nat.ltb_spec nameLen (String.length name)); [lia | reflexivity].
Qed.

(** ** Results and absence of panics *)


Lemma post_ret {A} (a : A) (P : A -> Prop) : P a -> post (ret a) P.
Proof. intros Ha s o s' H. inversion H; subst. exact Ha. Qed.

Lemma post_fail {A} e (P : A -> Prop) : post (fail e) P.
Proof. intros s o s' H. inversion H; subst. exact I. Qed.

Lemma post_timeout {A} (P : A -> Prop) : post timeout P.
Proof. intros s o s' H. inversion H; subst. exact I. Qed.

Lemma post_liftE {A} (r : Error + A) (P : A -> Prop) :
  (forall a, r = inr a -> P a) -> post (liftE r) P.
Proof.
  intros H. destruct r as [e | a]; [apply post_fail | apply post_ret; auto].
Qed.

Lemma post_io {A} (f : World -> (Error + A) * World) (P : A -> Prop) :
  (forall w a w', f w = (inr a, w') -> P a) -> post (io f) P.
Proof.
  intros Hf s o s' H. unfold io in H.
  destruct (f (world s)) as [r w] eqn:Ef.
  destruct r as [e | a]; inversion H; subst; [exact I |].
  eapply Hf. exact Ef.
Qed.

Lemma post_log ev (P : unit -> Prop) : P tt -> post (log ev) P.
Proof. intros HP s o s' H. inversion H; subst. exact HP. Qed.

Lemma post_bind {A B} (m : M A) (f : A -> M B) (Q : A -> Prop) (P : B -> Prop) :
  post m Q -> (forall a, Q a -> post (f a) P) -> post (bind m f) P.
Proof.
  intros Hm Hf s o s' H. unfold bind in H.
  destruct (m s) as [o1 s1] eqn:Em. specialize (Hm s o1 s1 Em).
  destruct o1 as [a | e | r |].
  - exact (Hf a Hm s1 o s' H).
  - inversion H; subst. exact I.
  - contradiction.
  - inversion H; subst. exact I.
Qed.

Lemma post_conseq {A} (m : M A) (Q P : A -> Prop) :
  post m Q -> (forall a, Q a -> P a) -> post m P.
Proof.
  intros Hm HQP s o s' H. specialize (Hm s o s' H).
  destruct o; auto.
Qed.

Lemma post_try {A} (m : M A) (Q : A -> Prop) :
  post m Q ->
  post (try m) (fun r => match r with inr a => Q a | inl _ => True end).
Proof.
  intros Hm s o s' H. unfold try in H.
  destruct (m s) as [o1 s1] eqn:Em. specialize (Hm s o1 s1 Em).
  destruct o1; inversion H; subst; auto.
Qed.

Lemma post_nested {A} (m : M A) (Q : A -> Prop) : post m Q -> post (nested m) Q.
Proof.
  intros Hm s o s' H. unfold nested in H.
  destruct (m _) as [o1 s1] eqn:Em. specialize (Hm _ o1 s1 Em).
  inversion H; subst. exact Hm.
Qed.

Lemma post_forEach {A T} (l : list A) (body : A -> T -> M T) (Inv : T -> Prop) :
  (forall x acc, In x l -> Inv acc -> post (body x acc) Inv) ->
  forall acc, Inv acc -> post (forEach l body acc) Inv.
Proof.
  induction l as [| x l IH]; intros Hb acc Hacc; simpl.
  - apply post_ret. exact Hacc.
  - apply (post_bind _ _ Inv).
    + apply Hb; [left; reflexivity | exact Hacc].
    + intros acc' Hacc'. apply IH; [| exact Hacc'].
      intros y a Hy. apply Hb. right. exact Hy.
Qed.

Lemma post_of_eq {A} (m : M A) (a : A) (P : A -> Prop) :
  (forall s, m s = (Ret a, s)) -> P a -> post m P.
Proof.
  intros Hm Ha s o s' H. rewrite Hm in H. inversion H; subst. exact Ha.
Qed.

Lemma wfSection_inr sec rs :
  wfSection sec = true -> sec = inr rs -> forallb wfResource rs = true.
Proof. intros H ->. exact H. Qed.

Lemma wfParser_sections p :
  wfParser p = true ->
  wfSection (P_Answers p) = true /\ wfSection (P_Authorities p) = true
  /\ wfSection (P_Additionals p) = true.
Proof.
  unfold wfParser. intros H.
  apply andb_prop in H. destruct H as [H H3].
  apply andb_prop in H. destruct H as [H1 H2]. auto.
Qed.

(** What a successful call of [outgoingDnsQuery] did. *)
Lemma outgoingDnsQuery_inv servers question s p h s' :
  outgoingDnsQuery servers question s = (Ret (p, h), s') ->
  exists randomNumber w1 buf conn err w2,
    rand_Int 65535 (world s) = (inr randomNumber, w1) /\
    Pack (queryMessage randomNumber question) = inr buf /\
    dialFirst servers None w1 = ((Some conn, err), w2) /\
    roundTrip conn buf w2 = (inr (p, h), world s') /\
    depth s' = depth s /\
    trace s' = trace s ++ [EvOutgoing (depth s) question servers].
Proof.
  unfold outgoingDnsQuery, bind, log, io. simpl.
  change (uint16 (Z.lnot 0)) with 65535%Z.
  destruct (rand_Int 65535 (world s)) as [[e | randomNumber] w1] eqn:Erand;
    simpl; [discriminate |].
  destruct (Pack (queryMessage randomNumber question)) as [e | buf] eqn:Epack;
    simpl; [discriminate |].
  destruct (dialFirst servers None w1) as [[conn err] w2] eqn:Edial.
  destruct conn as [conn |]; simpl; [| discriminate].
  destruct (roundTrip conn buf w2) as [[e | [p' h']] w3] eqn:Ert;
    simpl; [discriminate |].
  intros H. inversion H; subst. simpl.
  exists randomNumber, w1, buf, conn, err, w2. repeat split; assumption.
Qed.

Lemma post_outgoingDnsQuery servers question :
  post (outgoingDnsQuery servers question)
       (fun '(p, _) => wfParser p = true).
Proof.
  intros s o s' H. destruct o as [[p h] | e | r |]; try exact I.
  - destruct (outgoingDnsQuery_inv _ _ _ _ _ _ H)
      as (n & w1 & buf & conn & err & w2 & _ & _ & _ & Hrt & _).
    exact (roundTrip_wf _ _ _ _ _ _ Hrt).
  - revert H. unfold outgoingDnsQuery, bind, log, io. simpl.
    destruct (rand_Int _ _) as [[e | n] w1]; simpl; [discriminate |].
    destruct (Pack _) as [e | buf]; simpl; [discriminate |].
    destruct (dialFirst _ _ _) as [[[conn |] err] w2]; simpl; [| discriminate].
    destruct (roundTrip _ _ _) as [[e | [p' h']] w3]; simpl; discriminate.
Qed.

Lemma nameserverOf_length r :
  wfResource r = true -> String.length (nameserverOf r) <= nameLen.
Proof.
  intros Hwf. unfold nameserverOf.
  destruct (Z.eqb (RH_Type (R_Header r)) TypeNS) eqn:Hty;
    [| simpl; unfold nameLen; lia].
  destruct (wf_NS_body r Hwf Hty) as [ns [Hb Hns]]. rewrite Hb.
  unfold wfName in Hns. apply andb_prop in Hns. destruct Hns as [_ Hle].
  apply Nat.leb_le in Hle. exact Hle.
Qed.

Lemma nameservers_length authorities :
  forallb wfResource authorities = true ->
  Forall (fun n => String.length n <= nameLen) (map nameserverOf authorities).
Proof.
  intros Hwf. apply Forall_forall. intros n Hn.
  apply in_map_iff in Hn. destruct Hn as [r [<- Hr]].
  apply nameserverOf_length.
  rewrite forallb_forall in Hwf. apply Hwf. exact Hr.
Qed.

Lemma post_MustNewName name :
  String.length name <= nameLen ->
  post (MustNewName name) (fun n => n = {| Data := name |}).
Proof.
  intros Hlen. apply (post_of_eq _ {| Data := name |}); [| reflexivity].
  intros s. apply MustNewName_eq. exact Hlen.
Qed.

Lemma post_lookupNameservers sub nameservers acc :
  Forall (fun n => String.length n <= nameLen) nameservers ->
  (forall servers question, post (sub servers question) answersWf) ->
  post (lookupNameservers sub nameservers acc) (fun _ => True).
Proof.
  intros Hlen Hsub. unfold lookupNameservers.
  apply post_forEach; [| exact I].
  intros nameserver [found servers] Hin _.
  destruct (negb found); [| apply post_ret; exact I].
  rewrite Forall_forall in Hlen.
  eapply post_bind; [apply post_MustNewName, Hlen, Hin |]. intros name _.
  eapply post_bind; [apply post_try, Hsub |]. intros [err | response] Hr.
  - eapply post_bind; [apply (post_log _ (fun _ => True)); exact I |].
    intros _ _. apply post_ret. exact I.
  - eapply post_bind.
    + apply (post_of_eq _ (servers ++ flat_map addressOf (Answers response))
                        (fun _ => True)); [| exact I].
      intros s. apply appendAnswers_eq. exact Hr.
    + intros servers' _. apply post_ret. exact I.
Qed.

Lemma engineMessage_answersWf m : engineMessage m -> answersWf m.
Proof.
  intros [[answers [Hwf ->]] | [-> | ->]]; [exact Hwf | reflexivity ..].
Qed.

Lemma post_dnsQuery_round sub servers question :
  (forall servers question, post (sub servers question) answersWf) ->
  post (dnsQuery_round sub servers question) stepWf.
Proof.
  intros Hsub. unfold dnsQuery_round.
  eapply post_bind; [apply post_outgoingDnsQuery |].
  intros [dnsAnswer header] Hwf.
  destruct (wfParser_sections _ Hwf) as [Hans [Hauth Hadd]].
  eapply post_bind;
    [apply (post_liftE _ (fun rs => forallb wfResource rs = true));
     intros rs Hrs; exact (wfSection_inr _ _ Hans Hrs) |].
  intros parsedAnswers HparsedAnswers.
  destruct (Authoritative header).
  { apply post_ret. left. exists parsedAnswers. split; [assumption | reflexivity]. }
  eapply post_bind;
    [apply (post_liftE _ (fun rs => forallb wfResource rs = true));
     intros rs Hrs; exact (wfSection_inr _ _ Hauth Hrs) |].
  intros authorities Hauthorities.
  destruct (Nat.eqb _ _); [apply post_ret; right; left; reflexivity |].
  eapply post_bind.
  { apply (post_of_eq _ (map nameserverOf authorities)
                      (fun ns => ns = map nameserverOf authorities));
      [| reflexivity].
    intros s. apply collectNameservers_eq. exact Hauthorities. }
  intros nameservers ->.
  eapply post_bind;
    [apply (post_liftE _ (fun rs => forallb wfResource rs = true));
     intros rs Hrs; exact (wfSection_inr _ _ Hadd Hrs) |].
  intros additionals Hadditionals.
  eapply post_bind.
  { apply (post_of_eq _
             (negb (isNil (glueAddresses additionals
                                         (map nameserverOf authorities))),
              glueAddresses additionals (map nameserverOf authorities))
             (fun _ => True)); [| exact I].
    intros s. apply matchGlue_eq. exact Hadditionals. }
  intros [found glue] _.
  destruct (negb found); [| apply post_ret; exact I].
  eapply post_bind.
  { apply post_lookupNameservers; [| exact Hsub].
    apply nameservers_length. exact Hauthorities. }
  intros [found' servers'] _. apply post_ret. exact I.
Qed.

Lemma post_dnsQuery_loop sub rounds servers question :
  (forall servers question, post (sub servers question) answersWf) ->
  post (dnsQuery_loop sub rounds servers question) engineMessage.
Proof.
  intros Hsub. revert servers.
  induction rounds as [| rounds IH]; intros servers; simpl.
  - apply post_ret. right. right. reflexivity.
  - eapply post_bind; [apply post_dnsQuery_round, Hsub |].
    intros [m | servers'] Hstep; [apply post_ret; exact Hstep | apply IH].
Qed.

(** No call of [dnsQuery] panics: the type assertions hold on decoded
    records, the index of line 166 is in range, and [MustNewName] is only
    given strings of at most 255 bytes. *)
Lemma post_dnsQuery fuel servers question :
  post (dnsQuery fuel servers question) engineMessage.
Proof.
  revert servers question.
  induction fuel as [| fuel IH]; intros servers question.
  - apply post_timeout.
  - rewrite dnsQuery_S.
    eapply post_bind; [apply (post_log _ (fun _ => True)); exact I |].
    intros _ _. apply post_dnsQuery_loop. intros servers' question'.
    apply post_nested.
    eapply post_conseq; [apply IH | apply engineMessage_answersWf].
Qed.

Lemma post_subResolution fuel servers question :
  post (subResolution fuel servers question) answersWf.
Proof.
  apply post_nested.
  eapply post_conseq; [apply post_dnsQuery | apply engineMessage_answersWf].
Qed.

(** ** A call that does not return *)

Lemma bind_timeout {A B} (m : M A) (f : A -> M B) s :
  fst (m s) = Timeout -> fst (bind m f s) = Timeout.
Proof.
  unfold bind. destruct (m s) as [o s1]. simpl. intros ->. reflexivity.
Qed.

Lemma try_timeout {A} (m : M A) s :
  fst (m s) = Timeout -> fst (try m s) = Timeout.
Proof.
  unfold try. destruct (m s) as [o s1]. simpl. intros ->. reflexivity.
Qed.

Lemma nested_timeout {A} (m : M A) s :
  fst (m {| world := world s; depth := S (depth s); trace := trace s |})
  = Timeout ->
  fst (nested m s) = Timeout.
Proof.
  unfold nested. destruct (m _) as [o s1]. simpl. intros ->. reflexivity.
Qed.

(** A run, given its outcome. *)
Lemma run_fst {A} (m : M A) s o : fst (m s) = o -> m s = (o, snd (m s)).
Proof. intros <-. destruct (m s); reflexivity. Qed.

(** ** One round of the loop, case by case *)

Lemma loop_continues sub question k servers0 s0 servers s :
  continues sub question k servers0 s0 servers s ->
  forall n,
    dnsQuery_loop sub (k + n) servers0 question s0 =
    dnsQuery_loop sub n servers question s.
Proof.
  induction 1 as [| k servers s servers1 s1 servers' s' Hround _ IH];
    intros n; [reflexivity |].
  change (S k + n) with (S (k + n)). cbn [dnsQuery_loop]. unfold bind at 1.
  rewrite Hround. apply IH.
Qed.

Lemma round_transport_error sub servers question s err s1 :
  outgoingDnsQuery servers question s = (Fail err, s1) ->
  dnsQuery_round sub servers question s = (Fail err, s1).
Proof.
  intros Hout. unfold dnsQuery_round, bind at 1. rewrite Hout. reflexivity.
Qed.

Lemma round_authoritative sub servers question s p h s1 answers :
  outgoingDnsQuery servers question s = (Ret (p, h), s1) ->
  Authoritative h = true ->
  AllAnswers p = inr answers ->
  dnsQuery_round sub servers question s
  = (Ret (Return (resolvedMessage answers)), s1).
Proof.
  intros Hout Haa Hans. unfold dnsQuery_round, bind at 1. rewrite Hout.
  unfold bind at 1. rewrite Hans. simpl. rewrite Haa. reflexivity.
Qed.

Lemma round_name_error sub servers question s p h s1 answers :
  outgoingDnsQuery servers question s = (Ret (p, h), s1) ->
  Authoritative h = false ->
  AllAnswers p = inr answers ->
  AllAuthorities p = inr [] ->
  dnsQuery_round sub servers question s
  = (Ret (Return (rcodeMessage RCodeNameError)), s1).
Proof.
  intros Hout Haa Hans Hauth. unfold dnsQuery_round, bind at 1. rewrite Hout.
  unfold bind at 1. rewrite Hans. simpl. rewrite Haa.
  unfold bind at 1. rewrite Hauth. reflexivity.
Qed.

(** A referral: the reply is not authoritative and its authority section
    is not empty. Glue decides whether sub-resolutions are made. *)
Lemma round_referral sub servers question s p h s1 answers authorities
      additionals :
  outgoingDnsQuery servers question s = (Ret (p, h), s1) ->
  Authoritative h = false ->
  AllAnswers p = inr answers ->
  AllAuthorities p = inr authorities ->
  authorities <> [] ->
  AllAdditionals p = inr additionals ->
  dnsQuery_round sub servers question s
  = if isNil (glueAddresses additionals (map nameserverOf authorities))
    then bind (lookupNameservers sub (map nameserverOf authorities) (false, []))
              (fun '(_, servers) => ret (Continue servers)) s1
    else (Ret (Continue (glueAddresses additionals
                                       (map nameserverOf authorities))), s1).
Proof.
  intros Hout Haa Hans Hauth Hne Hadd.
  assert (Hwf : wfParser p = true).
  { exact (post_outgoingDnsQuery _ _ _ _ _ Hout). }
  destruct (wfParser_sections _ Hwf) as [_ [Hwauth Hwadd]].
  unfold dnsQuery_round, bind at 1. rewrite Hout.
  unfold bind at 1. rewrite Hans. simpl liftE. unfold ret at 1. rewrite Haa.
  unfold bind at 1. rewrite Hauth. simpl liftE. unfold ret at 1.
  destruct authorities as [| r rs]; [contradiction |].
  cbn [List.length Nat.eqb].
  unfold bind at 1.
  rewrite (collectNameservers_eq _ _ (wfSection_inr _ _ Hwauth Hauth)).
  unfold bind at 1. rewrite Hadd. simpl liftE. unfold ret at 1.
  unfold bind at 1.
  rewrite (matchGlue_eq _ _ _ (wfSection_inr _ _ Hwadd Hadd)).
  destruct (glueAddresses additionals (map nameserverOf (r :: rs)));
    reflexivity.
Qed.

Lemma round_referral_no_return sub servers question s p h s1 answers
      authorities :
  outgoingDnsQuery servers question s = (Ret (p, h), s1) ->
  Authoritative h = false ->
  AllAnswers p = inr answers ->
  AllAuthorities p = inr authorities ->
  authorities <> [] ->
  forall m s', dnsQuery_round sub servers question s <> (Ret (Return m), s').
Proof.
  intros Hout Haa Hans Hauth Hne m s'.
  destruct (AllAdditionals p) as [e | additionals] eqn:Hadd.
  - assert (Hwf : wfParser p = true).
    { exact (post_outgoingDnsQuery _ _ _ _ _ Hout). }
    destruct (wfParser_sections _ Hwf) as [_ [Hwauth _]].
    unfold dnsQuery_round, bind at 1. rewrite Hout.
    unfold bind at 1. rewrite Hans. simpl liftE. unfold ret at 1. rewrite Haa.
    unfold bind at 1. rewrite Hauth. simpl liftE. unfold ret at 1.
    destruct authorities as [| r rs]; [contradiction |].
    cbn [List.length Nat.eqb]. unfold bind at 1.
    rewrite (collectNameservers_eq _ _ (wfSection_inr _ _ Hwauth Hauth)).
    unfold bind at 1. rewrite Hadd. simpl. discriminate.
  - rewrite (round_referral sub _ _ _ _ _ _ _ _ _ Hout Haa Hans Hauth Hne Hadd).
    destruct (isNil _); [| discriminate].
    unfold bind.
    destruct (lookupNameservers _ _ _ _) as [[[found servers'] | e | r |] s2];
      discriminate.
Qed.

(** ** The fallback loop *)

Lemma lookup_found sub nameservers servers s :
  lookupNameservers sub nameservers (true, servers) s = (Ret (true, servers), s).
Proof.
  unfold lookupNameservers.
  induction nameservers as [| n ns IH]; [reflexivity |].
  cbn [forEach]. unfold bind at 1. simpl negb. cbv iota. unfold ret at 1.
  exact IH.
Qed.

Lemma lookup_step_fail sub name names servers s err s1 :
  String.length name <= nameLen ->
  sub getRootServers
      {| Q_Name := {| Data := name |}; Q_Type := TypeA; Q_Class := ClassINET |}
      s = (Fail err, s1) ->
  lookupNameservers sub (name :: names) (false, servers) s
  = lookupNameservers sub names (false, servers)
      {| world := world s1; depth := depth s1;
         trace := trace s1 ++ [EvWarning (depth s1) name err] |}.
Proof.
  intros Hlen Hsub. unfold lookupNameservers. cbn [forEach].
  unfold bind at 1. cbn [negb].
  unfold bind at 1. rewrite (MustNewName_eq _ _ Hlen).
  unfold bind at 1. unfold try. rewrite Hsub.
  unfold bind at 1. unfold log, ret. reflexivity.
Qed.

Lemma lookup_step_ok sub name names servers s response s1 :
  String.length name <= nameLen ->
  answersWf response ->
  sub getRootServers
      {| Q_Name := {| Data := name |}; Q_Type := TypeA; Q_Class := ClassINET |}
      s = (Ret response, s1) ->
  lookupNameservers sub (name :: names) (false, servers) s
  = (Ret (true, servers ++ flat_map addressOf (Answers response)), s1).
Proof.
  intros Hlen Hwf Hsub.
  rewrite <- (lookup_found sub names _ s1).
  unfold lookupNameservers. cbn [forEach].
  unfold bind at 1. cbn [negb].
  unfold bind at 1. rewrite (MustNewName_eq _ _ Hlen).
  unfold bind at 1. unfold try. rewrite Hsub.
  unfold bind at 1. rewrite (appendAnswers_eq _ _ _ Hwf).
  unfold ret at 1. reflexivity.
Qed.

Lemma lookup_all_fail sub names servers s s' :
  Forall (fun name => String.length name <= nameLen) names ->
  allFail sub names s s' ->
  lookupNameservers sub names (false, servers) s = (Ret (false, servers), s').
Proof.
  intros Hlen Hfail. induction Hfail as [s | name names s err s1 s' Hsub _ IH].
  - reflexivity.
  - inversion Hlen; subst.
    rewrite (lookup_step_fail _ _ _ _ _ _ _ H1 Hsub). apply IH. assumption.
Qed.

Lemma lookup_first_ok sub pre name rest servers s s1 response s2 :
  Forall (fun name => String.length name <= nameLen) (pre ++ [name]) ->
  allFail sub pre s s1 ->
  answersWf response ->
  sub getRootServers
      {| Q_Name := {| Data := name |}; Q_Type := TypeA; Q_Class := ClassINET |}
      s1 = (Ret response, s2) ->
  lookupNameservers sub (pre ++ name :: rest) (false, servers) s
  = (Ret (true, servers ++ flat_map addressOf (Answers response)), s2).
Proof.
  intros Hlen Hfail Hwf Hsub.
  induction Hfail as [s | n names s err s1 s' Hn _ IH].
  - simpl in Hlen. inversion Hlen; subst.
    apply lookup_step_ok; assumption.
  - simpl in Hlen. inversion Hlen; subst. simpl.
    rewrite (lookup_step_fail _ _ _ _ _ _ _ H1 Hn). apply IH; assumption.
Qed.

(** ** Glue matching against the specification *)

Lemma glue_of_delegated owner (ip : IP) authorities :
  owner <> "" ->
  map (fun _ => ip) (filter (String.eqb owner) (map nameserverOf authorities))
  = flat_map (fun hostname => if String.eqb owner hostname then [ip] else [])
             (delegated authorities).
Proof.
  intros Hne. unfold delegated.
  assert (Hempty : String.eqb owner "" = false).
  { apply String.eqb_neq. exact Hne. }
  induction authorities as [| r rs IH]; [reflexivity |].
  cbn [map filter flat_map]. rewrite flat_map_app, <- IH.
  unfold nameserverOf at 1.
  destruct (Z.eqb (RH_Type (R_Header r)) TypeNS).
  - destruct (Body r) as [a | ns | |]; try (rewrite Hempty; reflexivity).
    cbn [flat_map]. rewrite app_nil_r.
    destruct (String.eqb owner (Name_String ns)); reflexivity.
  - rewrite Hempty. reflexivity.
Qed.

Lemma wfName_nonempty n : wfName n = true -> Name_String n <> "".
Proof.
  unfold wfName, Name_String. intros H Heq. rewrite Heq in H. discriminate.
Qed.

Lemma glue_refines additionals authorities :
  forallb wfResource additionals = true ->
  glueAddresses additionals (map nameserverOf authorities)
  = glueSpec additionals authorities.
Proof.
  intros Hwf. unfold glueAddresses, glueSpec.
  induction additionals as [| a rest IH]; [reflexivity |].
  simpl in Hwf. apply andb_prop in Hwf. destruct Hwf as [Ha Hrest].
  cbn [flat_map]. rewrite (IH Hrest). f_equal.
  unfold glueOf.
  destruct (Z.eqb (RH_Type (R_Header a)) TypeA); [| reflexivity].
  destruct (Body a) as [ip | | |]; try reflexivity.
  apply glue_of_delegated. apply wfName_nonempty.
  unfold wfResource in Ha. apply andb_prop in Ha. tauto.
Qed.

(** ** Where the loop stands after [k] completed rounds *)

Lemma dnsQuery_at_round fuel question k servers0 s0 servers s :
  k < 3 ->
  continues (subResolution fuel) question k servers0 (entered question s0)
            servers s ->
  dnsQuery (S fuel) servers0 question s0
  = bind (dnsQuery_round (subResolution fuel) servers question)
         (fun step =>
            match step with
            | Return m => ret m
            | Continue servers' =>
                dnsQuery_loop (subResolution fuel) (2 - k) servers' question
            end) s.
Proof.
  intros Hk Hcont. rewrite dnsQuery_entered.
  replace 3 with (k + S (2 - k)) by lia.
  rewrite (loop_continues _ _ _ _ _ _ _ Hcont). reflexivity.
Qed.

(* ===================================================================== *)
(** ** The claims *)
(* ===================================================================== *)

(** C1, as amended. In any of the three rounds, when the transport returns
    a reply that is not authoritative and whose answer and authority
    sections decode, the resolution returns the NameError message (which
    has no answers) if the authority section is empty; and if the
    authority section is not empty, whatever the types of its records, the
    round does not return a message at all. *)
Theorem name_error_iff_authority_section_empty
    fuel question k servers0 s0 servers s p h s1 answers authorities :
  k < 3 ->
  continues (subResolution fuel) question k servers0 (entered question s0)
            servers s ->
  outgoingDnsQuery servers question s = (Ret (p, h), s1) ->
  Authoritative h = false ->
  AllAnswers p = inr answers ->
  AllAuthorities p = inr authorities ->
  (authorities = [] ->
     dnsQuery (S fuel) servers0 question s0
     = (Ret (rcodeMessage RCodeNameError), s1)
     /\ RCode (M_Header (rcodeMessage RCodeNameError)) = RCodeNameError
     /\ Answers (rcodeMessage RCodeNameError) = [])
  /\ (authorities <> [] ->
        forall m s',
          dnsQuery_round (subResolution fuel) servers question s
          <> (Ret (Return m), s')).
Proof.
  intros Hk Hcont Hout Haa Hans Hauth. split.
  - intros ->. split; [| split; reflexivity].
    rewrite (dnsQuery_at_round _ _ _ _ _ _ _ Hk Hcont). unfold bind.
    rewrite (round_name_error _ _ _ _ _ _ _ _ Hout Haa Hans Hauth).
    reflexivity.
  - intros Hne.
    exact (round_referral_no_return _ _ _ _ _ _ _ _ _ Hout Haa Hans Hauth Hne).
Qed.

(** C2, as amended. In the missing-glue fallback the hostnames are looked
    up in order, and the first sub-resolution that returns a message ends
    the probing, whether or not that message holds an A record: the
    addresses of its A records (possibly none) become the servers and the
    hostnames after it are not looked up. A sub-resolution that returns an
    error is followed by a warning and by the lookup of the next hostname;
    when all return errors no server is found. *)
Theorem fallback_stops_at_first_returned_message fuel :
  (forall pre name rest servers s s1 response s2,
      Forall (fun n => String.length n <= nameLen) (pre ++ [name]) ->
      allFail (subResolution fuel) pre s s1 ->
      subResolution fuel getRootServers
        {| Q_Name := {| Data := name |}; Q_Type := TypeA;
           Q_Class := ClassINET |} s1 = (Ret response, s2) ->
      lookupNameservers (subResolution fuel) (pre ++ name :: rest)
                        (false, servers) s
      = (Ret (true, servers ++ flat_map addressOf (Answers response)), s2))
  /\ (forall names servers s s',
        Forall (fun n => String.length n <= nameLen) names ->
        allFail (subResolution fuel) names s s' ->
        lookupNameservers (subResolution fuel) names (false, servers) s
        = (Ret (false, servers), s')).
Proof.
  split.
  - intros pre name rest servers s s1 response s2 Hlen Hfail Hsub.
    apply (lookup_first_ok _ _ _ _ _ _ s1); try assumption.
    exact (post_subResolution _ _ _ _ _ _ Hsub).
  - intros names servers s s' Hlen Hfail.
    apply lookup_all_fail; assumption.
Qed.

(** C3, as amended. In any of the three rounds, when the transport returns
    an authoritative reply whose answer section decodes, the resolution
    returns a message with the Response flag set and exactly the decoded
    answers; its Authoritative flag is not set, and its other header
    fields and sections are zero. *)
Theorem authoritative_reply_resolves
    fuel question k servers0 s0 servers s p h s1 answers :
  k < 3 ->
  continues (subResolution fuel) question k servers0 (entered question s0)
            servers s ->
  outgoingDnsQuery servers question s = (Ret (p, h), s1) ->
  Authoritative h = true ->
  AllAnswers p = inr answers ->
  exists m,
    dnsQuery (S fuel) servers0 question s0 = (Ret m, s1)
    /\ Response (M_Header m) = true
    /\ Answers m = answers
    /\ Authoritative (M_Header m) = false
    /\ m = resolvedMessage answers.
Proof.
  intros Hk Hcont Hout Haa Hans. exists (resolvedMessage answers).
  split; [| repeat split].
  rewrite (dnsQuery_at_round _ _ _ _ _ _ _ Hk Hcont). unfold bind.
  rewrite (round_authoritative _ _ _ _ _ _ _ _ Hout Haa Hans). reflexivity.
Qed.

(** C4, as amended. Whatever the question and the upstream, a call of
    [dnsQuery] calls the transport at most three times itself (calls made
    by its sub-resolutions are deeper); and when three rounds run to the
    end of the loop body, which requires that every sub-resolution they
    start returns, the call returns the ServerFailure message. *)
Theorem three_rounds_then_server_failure fuel servers question s :
  (exists evs,
      trace (snd (dnsQuery fuel servers question s)) = trace s ++ evs
      /\ countOutgoing (depth s) evs <= 3)
  /\ (forall servers' s',
        continues (subResolution fuel) question 3 servers
                  (entered question s) servers' s' ->
        dnsQuery (S fuel) servers question s
        = (Ret (rcodeMessage RCodeServerFailure), s')
        /\ RCode (M_Header (rcodeMessage RCodeServerFailure))
           = RCodeServerFailure).
Proof.
  split.
  - destruct (dnsQuery fuel servers question s) as [o s'] eqn:Hrun.
    destruct (logs_dnsQuery fuel servers question s o s' Hrun)
      as [_ [evs [Htrace [_ Hcount]]]].
    exists evs. split; assumption.
  - intros servers' s' Hcont. split; [| reflexivity].
    rewrite dnsQuery_entered.
    exact (loop_continues _ _ _ _ _ _ _ Hcont 0).
Qed.

(** C5. When [handlePacket] has written a reply, the datagram it wrote is
    the packing of a message whose transaction ID is the ID of the header
    decoded from the client's datagram: the message that the resolution
    returned, with its ID overwritten. *)
Theorem reply_carries_request_id fuel addr buf s s' :
  handlePacket fuel addr buf s = (Ret tt, s') ->
  exists header question response s1 responseBuf,
    Parser_Start buf = inr header
    /\ Parser_Question buf = inr question
    /\ dnsQuery fuel getRootServers question s = (Ret response, s1)
    /\ Pack (setID response (ID header)) = inr responseBuf
    /\ WriteTo responseBuf addr (world s1) = (None, world s')
    /\ ID (M_Header (setID response (ID header))) = ID header.
Proof.
  unfold handlePacket. unfold bind at 1.
  destruct (Parser_Start buf) as [e | header]; simpl; [discriminate |].
  unfold bind at 1.
  destruct (Parser_Question buf) as [e | question]; simpl; [discriminate |].
  unfold bind at 1.
  destruct (dnsQuery fuel getRootServers question s)
    as [[response | e | r |] s1] eqn:Hrun; try discriminate.
  unfold bind at 1.
  destruct (Pack (setID response (ID header))) as [e | responseBuf] eqn:Hpack;
    simpl; [discriminate |].
  destruct (WriteTo responseBuf addr (world s1)) as [[e |] w] eqn:Hwrite;
    [discriminate |].
  intros H. inversion H; subst. simpl.
  exists header, question, response, s1, responseBuf.
  repeat split; try reflexivity; assumption.
Qed.

(** C6, what the code does. Every query that [outgoingDnsQuery] has sent
    is the packing of a message whose transaction ID lies in
    [[0, 65535)]: the value 65535 is never used. *)
Theorem outgoing_id_below_65535 servers question s p h s' :
  outgoingDnsQuery servers question s = (Ret (p, h), s') ->
  exists randomNumber buf conn w,
    Pack (queryMessage randomNumber question) = inr buf
    /\ roundTrip conn buf w = (inr (p, h), world s')
    /\ (0 <= ID (M_Header (queryMessage randomNumber question)) < 65535)%Z.
Proof.
  intros Hout.
  destruct (outgoingDnsQuery_inv _ _ _ _ _ _ Hout)
    as (n & w1 & buf & conn & err & w2 & Hrand & Hpack & _ & Hrt & _).
  exists n, buf, conn, w2. repeat split; try assumption.
  - simpl. unfold uint16. apply Z.mod_pos_bound. lia.
  - simpl. unfold uint16.
    assert (Hn : (0 <= n < 65535)%Z).
    { eapply rand_Int_range; [| exact Hrand]. lia. }
    rewrite Z.mod_small; lia.
Qed.

(** C7. In any of the three rounds, when the call of the transport
    returns an error, the resolution returns that error, and no
    message. *)
Theorem transport_error_aborts
    fuel question k servers0 s0 servers s err s1 :
  k < 3 ->
  continues (subResolution fuel) question k servers0 (entered question s0)
            servers s ->
  outgoingDnsQuery servers question s = (Fail err, s1) ->
  dnsQuery (S fuel) servers0 question s0 = (Fail err, s1).
Proof.
  intros Hk Hcont Hout.
  rewrite (dnsQuery_at_round _ _ _ _ _ _ _ Hk Hcont). unfold bind.
  rewrite (round_transport_error _ _ _ _ _ _ Hout). reflexivity.
Qed.




End Properties.

(* ===================================================================== *)
(** * Further properties of the code *)
(* ===================================================================== *)

Section Further.

Context {E : External}.

(** ** The questions that are asked *)

Lemma emits_silent {A} (P : nat -> Event -> Prop) (m : M A) :
  (forall s, exists o, m s = (o, s)) -> emits P m.
Proof.
  intros H s o s' Hm. destruct (H s) as [o' Ho]. rewrite Ho in Hm.
  inversion Hm; subst. split; [reflexivity |].
  exists []. split; [symmetry; apply app_nil_r | apply Forall_nil].
Qed.

Lemma emits_ret {A} P (a : A) : emits P (ret a).
Proof. apply emits_silent. intros s. eexists. reflexivity. Qed.

Lemma emits_fail {A} P e : emits P (@fail _ A e).
Proof. apply emits_silent. intros s. eexists. reflexivity. Qed.

Lemma emits_panic {A} P r : emits P (@panic _ A r).
Proof. apply emits_silent. intros s. eexists. reflexivity. Qed.

Lemma emits_timeout {A} P : emits P (@timeout _ A).
Proof. apply emits_silent. intros s. eexists. reflexivity. Qed.

Lemma emits_liftE {A} P (r : Error + A) : emits P (liftE r).
Proof. destruct r; [apply emits_fail | apply emits_ret]. Qed.

Lemma emits_io {A} P (f : World -> (Error + A) * World) : emits P (io f).
Proof.
  intros s o s' H. unfold io in H. destruct (f (world s)) as [r w].
  destruct r; inversion H; subst; simpl; (split; [reflexivity |]);
    exists []; (split; [symmetry; apply app_nil_r | apply Forall_nil]).
Qed.

Lemma emits_log (P : nat -> Event -> Prop) ev :
  (forall d, P d (ev d)) -> emits P (log ev).
Proof.
  intros HP s o s' H. inversion H; subst. simpl. split; [reflexivity |].
  eexists. split; [reflexivity |]. constructor; [apply HP | constructor].
Qed.

Lemma emits_bind {A B} P (m : M A) (f : A -> M B) :
  emits P m -> (forall a, emits P (f a)) -> emits P (bind m f).
Proof.
  intros Hm Hf s o s' H. unfold bind in H.
  destruct (m s) as [o1 s1] eqn:Em.
  destruct (Hm s o1 s1 Em) as [Hd [evs1 [Ht Hall]]].
  destruct o1 as [a | e | r |];
    try (inversion H; subst; split; [exact Hd |]; exists evs1;
         split; assumption).
  destruct (Hf a s1 o s' H) as [Hd2 [evs2 [Ht2 Hall2]]].
  rewrite Hd in *. split; [exact Hd2 |].
  exists (evs1 ++ evs2). rewrite Ht2, Ht, app_assoc.
  split; [reflexivity |]. apply Forall_app. split; assumption.
Qed.

Lemma emits_try {A} P (m : M A) : emits P m -> emits P (try m).
Proof.
  intros Hm s o s' H. unfold try in H. destruct (m s) as [o1 s1] eqn:Em.
  specialize (Hm s o1 s1 Em).
  destruct o1; inversion H; subst; exact Hm.
Qed.

Lemma emits_nested {A} (P P' : nat -> Event -> Prop) (m : M A) :
  emits P m -> (forall d ev, P (S d) ev -> P' d ev) -> emits P' (nested m).
Proof.
  intros Hm Himp s o s' H. unfold nested in H.
  destruct (m _) as [o1 s1] eqn:Em.
  destruct (Hm _ o1 s1 Em) as [Hd [evs [Ht Hall]]].
  inversion H; subst. simpl in *. split; [reflexivity |].
  exists evs. split; [exact Ht |].
  eapply Forall_impl; [| exact Hall]. intros ev. apply Himp.
Qed.

Lemma emits_forEach {A T} P (l : list A) (body : A -> T -> M T) acc :
  (forall x acc, emits P (body x acc)) -> emits P (forEach l body acc).
Proof.
  intros Hb. revert acc. induction l as [| x l IH]; intros acc; simpl.
  - apply emits_ret.
  - apply emits_bind; [apply Hb | exact IH].
Qed.

Lemma emits_forEachIndex {A T} P (l : list A) (body : nat -> A -> T -> M T)
      k acc :
  (forall k x acc, emits P (body k x acc)) ->
  emits P (forEachIndex k l body acc).
Proof.
  intros Hb. revert k acc. induction l as [| x l IH]; intros k acc; simpl.
  - apply emits_ret.
  - apply emits_bind; [apply Hb | apply IH].
Qed.

Lemma emits_outgoingDnsQuery servers question :
  emits (ownOrDeeper question) (outgoingDnsQuery servers question).
Proof.
  unfold outgoingDnsQuery.
  apply emits_bind.
  { apply emits_log. intros d. simpl. left. split; reflexivity. }
  intros _.
  apply emits_bind; [apply emits_io |]. intros randomNumber.
  apply emits_bind; [apply emits_liftE |]. intros buf.
  apply emits_bind.
  - intros s o s' H.
    destruct (dialFirst servers None (world s)) as [r w].
    inversion H; subst. simpl. split; [reflexivity |].
    exists []. split; [symmetry; apply app_nil_r | apply Forall_nil].
  - intros [[conn |] err]; [apply emits_io | apply emits_fail].
Qed.

Lemma emits_lookupNameservers question sub nameservers acc :
  (forall servers name,
      emits (ownOrDeeper question)
            (sub servers {| Q_Name := name; Q_Type := TypeA;
                            Q_Class := ClassINET |})) ->
  emits (ownOrDeeper question) (lookupNameservers sub nameservers acc).
Proof.
  intros Hsub. unfold lookupNameservers. apply emits_forEach.
  intros nameserver [found servers].
  destruct (negb found); [| apply emits_ret].
  apply emits_bind.
  { unfold MustNewName. destruct (NewName nameserver);
      [apply emits_panic | apply emits_ret]. }
  intros name.
  apply emits_bind; [apply emits_try, Hsub |]. intros [err | response].
  - apply emits_bind; [| intros _; apply emits_ret].
    apply emits_log. intros d. simpl. apply le_n.
  - apply emits_bind; [| intros; apply emits_ret].
    unfold appendAnswers. apply emits_forEach. intros answer acc'.
    destruct (Z.eqb _ _); [| apply emits_ret].
    destruct (Body answer); first [apply emits_ret | apply emits_panic].
Qed.

Lemma emits_dnsQuery_round question sub servers :
  (forall servers name,
      emits (ownOrDeeper question)
            (sub servers {| Q_Name := name; Q_Type := TypeA;
                            Q_Class := ClassINET |})) ->
  emits (ownOrDeeper question) (dnsQuery_round sub servers question).
Proof.
  intros Hsub. unfold dnsQuery_round.
  apply emits_bind; [apply emits_outgoingDnsQuery |].
  intros [dnsAnswer header].
  apply emits_bind; [apply emits_liftE |]. intros parsedAnswers.
  destruct (Authoritative header); [apply emits_ret |].
  apply emits_bind; [apply emits_liftE |]. intros authorities.
  destruct (Nat.eqb _ _); [apply emits_ret |].
  apply emits_bind.
  { unfold collectNameservers. apply emits_forEachIndex.
    intros k authority acc.
    destruct (Z.eqb _ _); [| apply emits_ret].
    destruct (Body authority); try apply emits_panic.
    destruct (setIndex _ _ _); [apply emits_ret | apply emits_panic]. }
  intros nameservers.
  apply emits_bind; [apply emits_liftE |]. intros additionals.
  apply emits_bind.
  { unfold matchGlue. apply emits_forEach. intros additional acc.
    destruct (Z.eqb _ _); [| apply emits_ret].
    apply emits_forEach. intros nameserver [found servers'].
    destruct (String.eqb _ _); [| apply emits_ret].
    destruct (Body additional); first [apply emits_ret | apply emits_panic]. }
  intros [found glue].
  destruct (negb found); [| apply emits_ret].
  apply emits_bind; [apply emits_lookupNameservers, Hsub |].
  intros [found' servers']. apply emits_ret.
Qed.

Lemma emits_dnsQuery_loop question sub rounds servers :
  (forall servers name,
      emits (ownOrDeeper question)
            (sub servers {| Q_Name := name; Q_Type := TypeA;
                            Q_Class := ClassINET |})) ->
  emits (ownOrDeeper question) (dnsQuery_loop sub rounds servers question).
Proof.
  intros Hsub. revert servers.
  induction rounds as [| rounds IH]; intros servers; simpl.
  - apply emits_ret.
  - apply emits_bind; [apply emits_dnsQuery_round, Hsub |].
    intros [m | servers']; [apply emits_ret | apply IH].
Qed.

Lemma ownOrDeeper_nested question name d ev :
  ownOrDeeper {| Q_Name := name; Q_Type := TypeA; Q_Class := ClassINET |}
              (S d) ev ->
  ownOrDeeper question d ev.
Proof.
  destruct ev as [d' q' | d' q' sv | d' n e]; simpl.
  - intros [[-> ->] | [Hlt Hty]]; right.
    + split; [apply Nat.lt_succ_diag_r | split; reflexivity].
    + split; [lia | exact Hty].
  - intros [[-> _] | Hlt]; right; lia.
  - intros H. lia.
Qed.

Lemma emits_dnsQuery fuel : forall servers question,
  emits (ownOrDeeper question) (dnsQuery fuel servers question).
Proof.
  induction fuel as [| fuel IH]; intros servers question.
  - apply emits_timeout.
  - rewrite dnsQuery_S. apply emits_bind.
    { apply emits_log. intros d. simpl. left. split; reflexivity. }
    intros _. apply emits_dnsQuery_loop. intros servers' name.
    eapply emits_nested; [apply IH |].
    intros d ev. apply ownOrDeeper_nested.
Qed.

(** Whatever a call of [dnsQuery] does, every call of the transport that
    it makes itself, in any round, asks the question it was given; and
    every question that is asked deeper down, by a sub-resolution at any
    level, is an A question of class INET. *)
Theorem question_is_kept_and_lookups_ask_for_A fuel servers question s :
  depth (snd (dnsQuery fuel servers question s)) = depth s
  /\ exists evs,
       trace (snd (dnsQuery fuel servers question s)) = trace s ++ evs
       /\ (forall d q sv,
             In (EvOutgoing d q sv) evs -> d = depth s -> q = question)
       /\ (forall d q,
             In (EvQuestion d q) evs -> d <> depth s ->
             depth s < d /\ Q_Type q = TypeA /\ Q_Class q = ClassINET).
Proof.
  destruct (dnsQuery fuel servers question s) as [o s'] eqn:Hrun.
  destruct (emits_dnsQuery fuel servers question s o s' Hrun)
    as [Hd [evs [Ht Hall]]].
  simpl. split; [exact Hd |]. exists evs. split; [exact Ht |].
  rewrite Forall_forall in Hall. split.
  - intros d q sv Hin Heq. specialize (Hall _ Hin). simpl in Hall.
    destruct Hall as [[_ Hq] | Hlt]; [exact Hq | lia].
  - intros d q Hin Hne. specialize (Hall _ Hin). simpl in Hall.
    destruct Hall as [[Heq _] | H]; [contradiction | exact H].
Qed.

(** ** The transport *)

(** The state in which [outgoingDnsQuery] leaves off when the world is
    [w]: it has printed its line and nothing else. *)
Lemma outgoingDnsQuery_unfold servers question s :
  outgoingDnsQuery servers question s
  = match rand_Int 65535 (world s) with
    | (inl e, w1) =>
        (Fail e,
         {| world := w1; depth := depth s;
            trace := trace s ++ [EvOutgoing (depth s) question servers] |})
    | (inr randomNumber, w1) =>
        match Pack (queryMessage randomNumber question) with
        | inl e =>
            (Fail e,
             {| world := w1; depth := depth s;
                trace := trace s ++ [EvOutgoing (depth s) question servers] |})
        | inr buf =>
            match dialFirst servers None w1 with
            | ((None, err), w2) =>
                (Fail ("Failed to make connection to servers: "
                       ++ showError err)%string,
                 {| world := w2; depth := depth s;
                    trace := trace s
                             ++ [EvOutgoing (depth s) question servers] |})
            | ((Some conn, _), w2) =>
                match roundTrip conn buf w2 with
                | (inl e, w3) =>
                    (Fail e,
                     {| world := w3; depth := depth s;
                        trace := trace s
                                 ++ [EvOutgoing (depth s) question servers] |})
                | (inr reply, w3) =>
                    (Ret reply,
                     {| world := w3; depth := depth s;
                        trace := trace s
                                 ++ [EvOutgoing (depth s) question servers] |})
                end
            end
        end
    end.
Proof.
  unfold outgoingDnsQuery, bind, log, io. simpl.
  change (uint16 (Z.lnot 0)) with 65535%Z.
  destruct (rand_Int 65535 (world s)) as [[e | randomNumber] w1];
    simpl; [reflexivity |].
  destruct (Pack (queryMessage randomNumber question)) as [e | buf];
    simpl; [reflexivity |].
  destruct (dialFirst servers None w1) as [[[conn |] err] w2];
    simpl; [| reflexivity].
  destruct (roundTrip conn buf w2) as [[e | reply] w3]; reflexivity.
Qed.

Lemma outgoingDnsQuery_trace servers question s o s' :
  outgoingDnsQuery servers question s = (o, s') ->
  depth s' = depth s
  /\ trace s' = trace s ++ [EvOutgoing (depth s) question servers].
Proof.
  rewrite outgoingDnsQuery_unfold.
  destruct (rand_Int 65535 (world s)) as [[e | randomNumber] w1].
  { intros H. inversion H; subst. split; reflexivity. }
  destruct (Pack (queryMessage randomNumber question)) as [e | buf].
  { intros H. inversion H; subst. split; reflexivity. }
  destruct (dialFirst servers None w1) as [[[conn |] err] w2].
  - destruct (roundTrip conn buf w2) as [[e | reply] w3];
      intros H; inversion H; subst; split; reflexivity.
  - intros H. inversion H; subst. split; reflexivity.
Qed.

Lemma dialFirst_fail servers err w err' w' :
  dialsFail servers err w err' w' ->
  dialFirst servers err w = ((None, err'), w').
Proof.
  induction 1 as [err w | server rest err w e w1 err' w' Hdial _ IH];
    [reflexivity |].
  simpl. rewrite Hdial. exact IH.
Qed.

Lemma dialFirst_first pre server rest err w err1 w1 conn w2 :
  dialsFail pre err w err1 w1 ->
  Dial server w1 = (inr conn, w2) ->
  dialFirst (pre ++ server :: rest) err w = ((Some conn, None), w2).
Proof.
  intros Hfail Hdial.
  induction Hfail as [err w | s0 pre err w e w1 err' w' Hd _ IH].
  - simpl. rewrite Hdial. reflexivity.
  - simpl. rewrite Hd. apply IH. exact Hdial.
Qed.

(** The servers are dialled in order and the first one that connects is
    the one that is asked: the servers after it are not dialled, and the
    outcome is that of the exchange on that connection. When no server
    connects, the call fails with the last dial error in its message and
    nothing is sent. *)
Theorem first_server_that_connects_is_asked question s randomNumber w1 buf :
  rand_Int 65535 (world s) = (inr randomNumber, w1) ->
  Pack (queryMessage randomNumber question) = inr buf ->
  (forall pre server rest err w2 conn w3,
      dialsFail pre None w1 err w2 ->
      Dial server w2 = (inr conn, w3) ->
      outgoingDnsQuery (pre ++ server :: rest) question s
      = (match fst (roundTrip conn buf w3) with
         | inr reply => Ret reply
         | inl e => Fail e
         end,
         {| world := snd (roundTrip conn buf w3); depth := depth s;
            trace := trace s
                     ++ [EvOutgoing (depth s) question
                                    (pre ++ server :: rest)] |}))
  /\ (forall servers err w2,
        dialsFail servers None w1 err w2 ->
        outgoingDnsQuery servers question s
        = (Fail ("Failed to make connection to servers: "
                 ++ showError err)%string,
           {| world := w2; depth := depth s;
              trace := trace s ++ [EvOutgoing (depth s) question servers] |})).
Proof.
  intros Hrand Hpack. split.
  - intros pre server rest err w2 conn w3 Hfail Hdial.
    rewrite outgoingDnsQuery_unfold, Hrand, Hpack.
    rewrite (dialFirst_first _ _ rest _ _ _ _ _ _ Hfail Hdial).
    destruct (roundTrip conn buf w3) as [[e | reply] w4]; reflexivity.
  - intros servers err w2 Hfail.
    rewrite outgoingDnsQuery_unfold, Hrand, Hpack.
    rewrite (dialFirst_fail _ _ _ _ _ Hfail). reflexivity.
Qed.

Lemma outgoing_without_servers question s :
  exists e,
    fst (outgoingDnsQuery [] question s) = Fail e
    /\ world (snd (outgoingDnsQuery [] question s))
       = snd (rand_Int 65535 (world s))
    /\ (forall randomNumber w1 buf,
          rand_Int 65535 (world s) = (inr randomNumber, w1) ->
          Pack (queryMessage randomNumber question) = inr buf ->
          e = "Failed to make connection to servers: %!s(<nil>)").
Proof.
  rewrite outgoingDnsQuery_unfold.
  destruct (rand_Int 65535 (world s)) as [[e | randomNumber] w1] eqn:Hrand.
  { exists e. repeat split. intros n w buf H. discriminate. }
  destruct (Pack (queryMessage randomNumber question)) as [e | buf] eqn:Hpack.
  { exists e. repeat split. intros n w buf H Hp.
    inversion H; subst. rewrite Hpack in Hp. discriminate. }
  simpl. eexists. repeat split.
Qed.

(** With an empty list of servers the transport never returns a reply: it
    fails, and the outside world is left as the draw of the transaction
    ID left it, so nothing was dialled or sent. When the draw and the
    packing succeed, the error is the one about the connection, with the
    nil error printed in it. *)
Theorem no_server_no_reply question s :
  exists e,
    fst (outgoingDnsQuery [] question s) = Fail e
    /\ world (snd (outgoingDnsQuery [] question s))
       = snd (rand_Int 65535 (world s))
    /\ (forall randomNumber w1 buf,
          rand_Int 65535 (world s) = (inr randomNumber, w1) ->
          Pack (queryMessage randomNumber question) = inr buf ->
          e = "Failed to make connection to servers: %!s(<nil>)").
Proof. exact (outgoing_without_servers question s). Qed.

(** A query whose transaction ID cannot be drawn, or whose message cannot
    be packed, is not sent: the call returns that error and the outside
    world is left as the draw left it. *)
Theorem query_that_cannot_be_built_is_not_sent servers question s :
  (forall e w1,
      rand_Int 65535 (world s) = (inl e, w1) ->
      outgoingDnsQuery servers question s
      = (Fail e,
         {| world := w1; depth := depth s;
            trace := trace s ++ [EvOutgoing (depth s) question servers] |}))
  /\ (forall randomNumber w1 e,
        rand_Int 65535 (world s) = (inr randomNumber, w1) ->
        Pack (queryMessage randomNumber question) = inl e ->
        outgoingDnsQuery servers question s
        = (Fail e,
           {| world := w1; depth := depth s;
              trace := trace s
                       ++ [EvOutgoing (depth s) question servers] |})).
Proof.
  split.
  - intros e w1 Hrand. rewrite outgoingDnsQuery_unfold, Hrand. reflexivity.
  - intros n w1 e Hrand Hpack.
    rewrite outgoingDnsQuery_unfold, Hrand, Hpack. reflexivity.
Qed.

(** ** The resolution *)

(** In any of the three rounds, a section of the reply that does not
    decode ends the resolution with the decoder's error: the answer
    section even when the header is authoritative, the authority section
    of a reply that is not authoritative, and the additional section of a
    referral. No message is returned and no sub-resolution is started. *)
Theorem section_that_does_not_decode_aborts
    fuel question k servers0 s0 servers s p h s1 :
  k < 3 ->
  continues (subResolution fuel) question k servers0 (entered question s0)
            servers s ->
  outgoingDnsQuery servers question s = (Ret (p, h), s1) ->
  (forall e,
      AllAnswers p = inl e ->
      dnsQuery (S fuel) servers0 question s0 = (Fail e, s1))
  /\ (forall answers e,
        AllAnswers p = inr answers ->
        Authoritative h = false ->
        AllAuthorities p = inl e ->
        dnsQuery (S fuel) servers0 question s0 = (Fail e, s1))
  /\ (forall answers authorities e,
        AllAnswers p = inr answers ->
        Authoritative h = false ->
        AllAuthorities p = inr authorities ->
        authorities <> [] ->
        AllAdditionals p = inl e ->
        dnsQuery (S fuel) servers0 question s0 = (Fail e, s1)).
Proof.
  intros Hk Hcont Hout.
  assert (Hwf : wfParser p = true).
  { exact (post_outgoingDnsQuery _ _ _ _ _ Hout). }
  destruct (wfParser_sections _ Hwf) as [_ [Hwauth _]].
  rewrite (dnsQuery_at_round _ _ _ _ _ _ _ Hk Hcont).
  split; [| split].
  - intros e Hans.
    unfold bind at 1. unfold dnsQuery_round, bind at 1. rewrite Hout.
    unfold bind at 1. rewrite Hans. reflexivity.
  - intros answers e Hans Haa Hauth.
    unfold bind at 1. unfold dnsQuery_round, bind at 1. rewrite Hout.
    unfold bind at 1. rewrite Hans. simpl liftE. unfold ret at 1.
    rewrite Haa. unfold bind at 1. rewrite Hauth. reflexivity.
  - intros answers authorities e Hans Haa Hauth Hne Hadd.
    unfold bind at 1. unfold dnsQuery_round, bind at 1. rewrite Hout.
    unfold bind at 1. rewrite Hans. simpl liftE. unfold ret at 1.
    rewrite Haa. unfold bind at 1. rewrite Hauth. simpl liftE.
    unfold ret at 1.
    destruct authorities as [| r rs]; [contradiction |].
    cbn [List.length Nat.eqb]. unfold bind at 1.
    rewrite (collectNameservers_eq _ _ (wfSection_inr _ _ Hwauth Hauth)).
    unfold bind at 1. rewrite Hadd. reflexivity.
Qed.

(** When the first or the second round ends without any server for the
    next one (a referral none of whose nameservers could be resolved to
    an address), the resolution returns an error from the next call of
    the transport, not a ServerFailure message. *)
Theorem round_without_servers_ends_in_error
    fuel question k servers0 s0 s :
  k < 3 ->
  continues (subResolution fuel) question k servers0 (entered question s0)
            [] s ->
  exists e,
    dnsQuery (S fuel) servers0 question s0
    = (Fail e, snd (outgoingDnsQuery [] question s))
    /\ (forall randomNumber w1 buf,
          rand_Int 65535 (world s) = (inr randomNumber, w1) ->
          Pack (queryMessage randomNumber question) = inr buf ->
          e = "Failed to make connection to servers: %!s(<nil>)").
Proof.
  intros Hk Hcont.
  destruct (outgoing_without_servers question s) as [e [Hfail [_ He]]].
  exists e. split; [| exact He].
  rewrite (dnsQuery_at_round _ _ _ _ _ _ _ Hk Hcont). unfold bind.
  rewrite (round_transport_error _ _ _ _ _ _ (run_fst _ _ _ Hfail)).
  reflexivity.
Qed.

(** ** What is returned, and after how many calls of the transport *)

Lemma dnsQuery_round_unfold sub servers question s :
  dnsQuery_round sub servers question s
  = bind (outgoingDnsQuery servers question)
         (fun reply => afterTransport sub (fst reply) (snd reply)) s.
Proof.
  unfold dnsQuery_round, afterTransport, bind.
  destruct (outgoingDnsQuery servers question s)
    as [[[dnsAnswer header] | e | r |] s1]; try reflexivity.
  simpl.
  destruct (liftE (AllAnswers dnsAnswer) s1) as [[answers | e | r |] s2];
    try reflexivity.
  destruct (Authoritative header); [reflexivity |].
  destruct (liftE (AllAuthorities dnsAnswer) s2)
    as [[authorities | e | r |] s3]; try reflexivity.
  destruct (Nat.eqb _ _); [reflexivity |].
  destruct (collectNameservers authorities s3)
    as [[nameservers | e | r |] s4]; try reflexivity.
  destruct (liftE (AllAdditionals dnsAnswer) s4)
    as [[additionals | e | r |] s5]; try reflexivity.
  destruct (matchGlue additionals nameservers s5)
    as [[[found glue] | e | r |] s6]; try reflexivity.
  simpl. destruct (negb found); [| reflexivity].
  destruct (lookupNameservers sub nameservers (found, glue) s6)
    as [[[found' servers'] | e | r |] s7]; reflexivity.
Qed.

Lemma logs_afterTransport sub dnsAnswer header :
  (forall servers question, logs 0 (sub servers question)) ->
  logs 0 (afterTransport sub dnsAnswer header).
Proof.
  intros Hsub. unfold afterTransport.
  apply logs_bind0; [apply logs_liftE |]. intros parsedAnswers.
  destruct (Authoritative header); [apply logs_ret |].
  apply logs_bind0; [apply logs_liftE |]. intros authorities.
  destruct (Nat.eqb _ _); [apply logs_ret |].
  apply logs_bind0; [apply logs_collectNameservers |]. intros nameservers.
  apply logs_bind0; [apply logs_liftE |]. intros additionals.
  apply logs_bind0; [apply logs_matchGlue |]. intros found.
  destruct (negb (fst found)); [| apply logs_ret].
  apply logs_bind0; [apply logs_lookupNameservers, Hsub |].
  intros found'. apply logs_ret.
Qed.

Lemma returns_ret {A} (a : A) (P : A -> Prop) : P a -> returns (ret a) P.
Proof. intros Ha s a' s' H. inversion H; subst. exact Ha. Qed.

Lemma returns_bind {A B} (m : M A) (f : A -> M B) (P : B -> Prop) :
  (forall a, returns (f a) P) -> returns (bind m f) P.
Proof.
  intros Hf s b s' H. unfold bind in H.
  destruct (m s) as [[a | e | r |] s1]; try discriminate.
  exact (Hf a s1 b s' H).
Qed.

(** A round returns no message but the resolved one and NameError. *)
Lemma returns_afterTransport sub dnsAnswer header :
  returns (afterTransport sub dnsAnswer header)
          (fun step =>
             match step with
             | Return m =>
                 (exists answers, m = resolvedMessage answers)
                 \/ m = rcodeMessage RCodeNameError
             | Continue _ => True
             end).
Proof.
  unfold afterTransport.
  apply returns_bind. intros parsedAnswers.
  destruct (Authoritative header).
  { apply returns_ret. left. exists parsedAnswers. reflexivity. }
  apply returns_bind. intros authorities.
  destruct (Nat.eqb _ _); [apply returns_ret; right; reflexivity |].
  apply returns_bind. intros nameservers.
  apply returns_bind. intros additionals.
  apply returns_bind. intros found.
  destruct (negb (fst found)); [| apply returns_ret; exact I].
  apply returns_bind. intros found'. apply returns_ret. exact I.
Qed.

Lemma countOutgoing_one d question servers :
  countOutgoing d [EvOutgoing d question servers] = 1.
Proof. unfold countOutgoing. simpl. rewrite Nat.eqb_refl. reflexivity. Qed.

(** Every round, however it ends, calls the transport exactly once. *)
Lemma round_calls_transport_once sub servers question s o s' :
  (forall servers question, logs 0 (sub servers question)) ->
  dnsQuery_round sub servers question s = (o, s') ->
  depth s' = depth s
  /\ exists evs, trace s' = trace s ++ evs
                 /\ countOutgoing (depth s) evs = 1.
Proof.
  intros Hsub. rewrite dnsQuery_round_unfold. unfold bind.
  destruct (outgoingDnsQuery servers question s) as [o1 s1] eqn:Hout.
  destruct (outgoingDnsQuery_trace _ _ _ _ _ Hout) as [Hd Ht].
  destruct o1 as [reply | e | r |];
    try (intros H; inversion H; subst; split; [exact Hd |];
         eexists; split; [exact Ht | apply countOutgoing_one]).
  intros H.
  destruct (logs_afterTransport sub (fst reply) (snd reply) Hsub s1 o s' H)
    as [Hd2 [evs2 [Ht2 [_ Hc2]]]].
  rewrite Hd in *. split; [exact Hd2 |].
  exists ([EvOutgoing (depth s) question servers] ++ evs2).
  rewrite Ht2, Ht, <- app_assoc. split; [reflexivity |].
  rewrite countOutgoing_app, countOutgoing_one. lia.
Qed.

Lemma continues_calls_transport sub question k servers s servers' s' :
  (forall servers question, logs 0 (sub servers question)) ->
  continues sub question k servers s servers' s' ->
  depth s' = depth s
  /\ exists evs, trace s' = trace s ++ evs
                 /\ countOutgoing (depth s) evs = k.
Proof.
  intros Hsub Hcont.
  induction Hcont as [servers s | k servers s servers1 s1 servers' s'
                                    Hround _ IH].
  - split; [reflexivity |]. exists []. split; [symmetry; apply app_nil_r |].
    reflexivity.
  - destruct (round_calls_transport_once _ _ _ _ _ _ Hsub Hround)
      as [Hd [evs1 [Ht Hc]]].
    destruct IH as [Hd2 [evs2 [Ht2 Hc2]]]. rewrite Hd in *.
    split; [exact Hd2 |]. exists (evs1 ++ evs2).
    rewrite Ht2, Ht, <- app_assoc. split; [reflexivity |].
    rewrite countOutgoing_app. lia.
Qed.

(** How a loop that returns a message got there. *)
Lemma loop_returns sub question rounds : forall servers s m s',
  dnsQuery_loop sub rounds servers question s = (Ret m, s') ->
  (exists k servers1 s1,
      k < rounds
      /\ continues sub question k servers s servers1 s1
      /\ dnsQuery_round sub servers1 question s1 = (Ret (Return m), s'))
  \/ (m = rcodeMessage RCodeServerFailure
      /\ exists servers1,
           continues sub question rounds servers s servers1 s').
Proof.
  induction rounds as [| rounds IH]; intros servers s m s' H.
  - inversion H; subst. right. split; [reflexivity |].
    exists servers. apply continues_O.
  - cbn [dnsQuery_loop] in H. unfold bind in H.
    destruct (dnsQuery_round sub servers question s)
      as [[[m1 | servers1] | e | r |] s1] eqn:Hround; try discriminate.
    + inversion H; subst. left. exists 0, servers, s.
      split; [lia |]. split; [apply continues_O | exact Hround].
    + destruct (IH _ _ _ _ H)
        as [[k [sv [sk [Hk [Hcont Hret]]]]] | [Hm [sv Hcont]]].
      * left. exists (S k), sv, sk. split; [lia |].
        split; [| exact Hret]. eapply continues_S; eassumption.
      * right. split; [exact Hm |]. exists sv.
        eapply continues_S; eassumption.
Qed.

Lemma logs_subResolution fuel servers question :
  logs 0 (subResolution fuel servers question).
Proof. apply (logs_nested _ 3 0). apply logs_dnsQuery. Qed.

(** A resolution that returns a message has called the transport itself
    at least once and at most three times; and it returns ServerFailure
    only after exactly three calls. *)
Theorem transport_calls_of_a_returned_message
    fuel servers question s m s' :
  dnsQuery fuel servers question s = (Ret m, s') ->
  exists evs,
    trace s' = trace s ++ evs
    /\ 1 <= countOutgoing (depth s) evs <= 3
    /\ (RCode (M_Header m) = RCodeServerFailure ->
        countOutgoing (depth s) evs = 3).
Proof.
  destruct fuel as [| fuel]; [discriminate |].
  rewrite dnsQuery_entered. intros Hrun.
  assert (Hsub : forall servers question,
             logs 0 (subResolution fuel servers question)).
  { intros. apply logs_subResolution. }
  destruct (loop_returns _ _ _ _ _ _ _ Hrun)
    as [[k [sv [sk [Hk [Hcont Hret]]]]] | [Hm [sv Hcont]]].
  - destruct (continues_calls_transport _ _ _ _ _ _ _ Hsub Hcont)
      as [Hd [evs1 [Ht Hc]]].
    destruct (round_calls_transport_once _ _ _ _ _ _ Hsub Hret)
      as [_ [evs2 [Ht2 Hc2]]].
    simpl in Hd, Ht, Hc.
    exists ([EvQuestion (depth s) question] ++ evs1 ++ evs2).
    split; [rewrite Ht2, Ht; rewrite <- !app_assoc; reflexivity |].
    rewrite Hd in Hc2.
    assert (Hcount : countOutgoing (depth s)
                       ([EvQuestion (depth s) question] ++ evs1 ++ evs2)
                     = S k).
    { rewrite !countOutgoing_app. unfold countOutgoing at 1. simpl. lia. }
    rewrite Hcount. split; [lia |].
    intros Hrcode. exfalso.
    rewrite dnsQuery_round_unfold in Hret. unfold bind in Hret.
    destruct (outgoingDnsQuery sv question sk) as [[reply | e | r |] s1];
      try discriminate.
    pose proof (returns_afterTransport _ _ _ _ _ _ Hret) as Hshape.
    simpl in Hshape.
    destruct Hshape as [[answers ->] | ->]; discriminate.
  - destruct (continues_calls_transport _ _ _ _ _ _ _ Hsub Hcont)
      as [Hd [evs1 [Ht Hc]]].
    simpl in Hd, Ht, Hc.
    exists ([EvQuestion (depth s) question] ++ evs1).
    split; [rewrite Ht; rewrite <- !app_assoc; reflexivity |].
    assert (Hcount : countOutgoing (depth s)
                       ([EvQuestion (depth s) question] ++ evs1) = 3).
    { rewrite !countOutgoing_app. unfold countOutgoing at 1. simpl. lia. }
    rewrite Hcount. split; [lia | reflexivity].
Qed.

(** Every message that a resolution returns has the transaction ID 0, the
    opcode 0, no flag but possibly Response, and empty question,
    authority and additional sections. Its result code is Success,
    NameError or ServerFailure; the Response flag is set exactly when the
    code is Success, and only then can there be answers, all of them
    decoded records. *)
Theorem returned_message_shape fuel servers question s m s' :
  dnsQuery fuel servers question s = (Ret m, s') ->
  ID (M_Header m) = 0%Z /\ OpCode (M_Header m) = 0%Z
  /\ Authoritative (M_Header m) = false /\ Truncated (M_Header m) = false
  /\ RecursionDesired (M_Header m) = false
  /\ RecursionAvailable (M_Header m) = false
  /\ Questions m = [] /\ Authorities m = [] /\ Additionals m = []
  /\ (RCode (M_Header m) = RCodeSuccess
      \/ RCode (M_Header m) = RCodeNameError
      \/ RCode (M_Header m) = RCodeServerFailure)
  /\ (Response (M_Header m) = true <-> RCode (M_Header m) = RCodeSuccess)
  /\ (RCode (M_Header m) <> RCodeSuccess -> Answers m = [])
  /\ forallb wfResource (Answers m) = true.
Proof.
  intros Hrun.
  pose proof (post_dnsQuery fuel servers question s _ s' Hrun) as Hshape.
  simpl in Hshape.
  destruct Hshape as [[answers [Hwf ->]] | [-> | ->]]; simpl;
    repeat (split; try reflexivity; try discriminate; try tauto; auto).
Qed.

(** ** The request handler *)

(** [handlePacket] writes at most once, to the address of the request, and
    only the packing of the resolved message with the request's ID, after
    decoding, resolution and packing have all succeeded; its result is
    then that of the write. In every other case it returns an error (or
    does not return) and leaves the state as it was at the start or as
    the resolution left it: nothing is written. *)
Theorem handlePacket_writes_only_after_success fuel addr buf s o s' :
  handlePacket fuel addr buf s = (o, s') ->
  (exists header question response s1 responseBuf err,
      Parser_Start buf = inr header
      /\ Parser_Question buf = inr question
      /\ dnsQuery fuel getRootServers question s = (Ret response, s1)
      /\ Pack (setID response (ID header)) = inr responseBuf
      /\ WriteTo responseBuf addr (world s1) = (err, world s')
      /\ o = match err with None => Ret tt | Some e => Fail e end
      /\ depth s' = depth s1 /\ trace s' = trace s1)
  \/ (o <> Ret tt
      /\ (s' = s
          \/ exists question,
               Parser_Question buf = inr question
               /\ s' = snd (dnsQuery fuel getRootServers question s))).
Proof.
  unfold handlePacket. unfold bind at 1.
  destruct (Parser_Start buf) as [e | header] eqn:Hstart; simpl.
  { intros H. inversion H; subst. right. split; [discriminate | left; reflexivity]. }
  unfold bind at 1.
  destruct (Parser_Question buf) as [e | question] eqn:Hquestion; simpl.
  { intros H. inversion H; subst. right. split; [discriminate | left; reflexivity]. }
  unfold bind at 1.
  destruct (dnsQuery fuel getRootServers question s)
    as [[response | e | r |] s1] eqn:Hrun;
    try (intros H; inversion H; subst; right; split; [discriminate |];
         right; exists question; split; [reflexivity |];
         rewrite Hrun; reflexivity).
  unfold bind at 1.
  destruct (Pack (setID response (ID header))) as [e | responseBuf] eqn:Hpack;
    simpl.
  { intros H. inversion H; subst. right. split; [discriminate |].
    right. exists question. split; [reflexivity |].
    rewrite Hrun. reflexivity. }
  destruct (WriteTo responseBuf addr (world s1)) as [err w] eqn:Hwrite.
  intros H. inversion H; subst. left.
  exists header, question, response, s1, responseBuf, err.
  simpl. repeat split; try reflexivity; assumption.
Qed.

(** From the client's datagram to the reply: when, in any of the three
    rounds, an upstream server answers authoritatively, the handler packs
    the message with the request's ID, the Response flag and exactly the
    decoded answers, and nothing else, and writes it to the requester. *)
Theorem authoritative_answer_reaches_the_client
    fuel addr buf s header question k servers sk p h s1 answers
    responseBuf w :
  Parser_Start buf = inr header ->
  Parser_Question buf = inr question ->
  k < 3 ->
  continues (subResolution fuel) question k getRootServers
            (entered question s) servers sk ->
  outgoingDnsQuery servers question sk = (Ret (p, h), s1) ->
  Authoritative h = true ->
  AllAnswers p = inr answers ->
  Pack (resolvedReply (ID header) answers) = inr responseBuf ->
  WriteTo responseBuf addr (world s1) = (None, w) ->
  handlePacket (S fuel) addr buf s
  = (Ret tt, {| world := w; depth := depth s1; trace := trace s1 |}).
Proof.
  intros Hstart Hquestion Hk Hcont Hout Haa Hans Hpack Hwrite.
  assert (Hrun : dnsQuery (S fuel) getRootServers question s
                 = (Ret (resolvedMessage answers), s1)).
  { rewrite (dnsQuery_at_round _ _ _ _ _ _ _ Hk Hcont). unfold bind.
    rewrite (round_authoritative _ _ _ _ _ _ _ _ Hout Haa Hans).
    reflexivity. }
  unfold handlePacket. unfold bind at 1. rewrite Hstart. cbn [liftE ret].
  unfold bind at 1. rewrite Hquestion. cbn [liftE ret].
  unfold bind at 1. rewrite Hrun.
  unfold bind at 1.
  change (setID (resolvedMessage answers) (ID header))
    with (resolvedReply (ID header) answers).
  rewrite Hpack. cbn [liftE ret]. rewrite Hwrite. reflexivity.
Qed.

(** ** The root servers *)

Lemma splitFrom_cons sep s : forall cur,
  exists field fields, splitFrom sep s cur = field :: fields.
Proof.
  induction s as [| c s IH]; intros cur; simpl.
  - exists cur, []. reflexivity.
  - destruct (Ascii.eqb c sep); [exists cur; eexists; reflexivity | apply IH].
Qed.

Lemma append_assoc (a b c : string) :
  ((a ++ b) ++ c)%string = (a ++ (b ++ c))%string.
Proof. induction a as [| x a IH]; simpl; [reflexivity | rewrite IH; reflexivity]. Qed.

Lemma append_empty (a : string) : (a ++ "")%string = a.
Proof. induction a as [| x a IH]; simpl; [reflexivity | rewrite IH; reflexivity]. Qed.

Lemma splitFrom_concat sep s : forall cur,
  String.concat (String sep "") (splitFrom sep s cur) = (cur ++ s)%string.
Proof.
  induction s as [| c s IH]; intros cur; simpl.
  - rewrite append_empty. reflexivity.
  - destruct (Ascii.eqb_spec c sep) as [-> | Hne].
    + destruct (splitFrom_cons sep s "") as [field [fields Hsplit]].
      specialize (IH ""%string). rewrite Hsplit in *. simpl in *.
      rewrite IH. reflexivity.
    + rewrite IH, append_assoc. reflexivity.
Qed.

Lemma splitFrom_length sep s : forall cur,
  List.length (splitFrom sep s cur) = S (occurrences sep s).
Proof.
  induction s as [| c s IH]; intros cur; simpl; [reflexivity |].
  destruct (Ascii.eqb c sep); simpl; rewrite IH; reflexivity.
Qed.

Lemma occurrences_append sep a b :
  occurrences sep (a ++ b) = occurrences sep a + occurrences sep b.
Proof.
  induction a as [| x a IH]; simpl; [reflexivity |].
  destruct (Ascii.eqb x sep); simpl; rewrite IH; reflexivity.
Qed.

Lemma splitFrom_fields sep s : forall cur,
  occurrences sep cur = 0 ->
  Forall (fun field => occurrences sep field = 0) (splitFrom sep s cur).
Proof.
  induction s as [| c s IH]; intros cur Hcur; simpl.
  - constructor; [exact Hcur | constructor].
  - destruct (Ascii.eqb c sep) eqn:Hc.
    + constructor; [exact Hcur | apply IH; reflexivity].
    + apply IH. rewrite occurrences_append, Hcur. simpl. rewrite Hc.
      reflexivity.
Qed.

(** [Split] cuts a string at every occurrence of the separator and
    nowhere else: joining the fields with the separator gives the string
    back, there is one field more than there are separators, and no field
    contains the separator. *)
Theorem Split_joins_back s sep :
  String.concat (String sep "") (Split s sep) = s
  /\ List.length (Split s sep) = S (occurrences sep s)
  /\ Forall (fun field => occurrences sep field = 0) (Split s sep).
Proof.
  unfold Split. split; [| split].
  - apply (splitFrom_concat sep s ""%string).
  - apply splitFrom_length.
  - apply splitFrom_fields. reflexivity.
Qed.

Lemma parseDigits_nonneg s : forall acc n,
  (0 <= acc)%Z -> parseDigits s acc = Some n -> (0 <= n)%Z.
Proof.
  induction s as [| c s IH]; intros acc n Hacc; cbn [parseDigits].
  - intros H. inversion H; subst. exact Hacc.
  - cbv zeta. set (d := (Z.of_nat (nat_of_ascii c) - 48)%Z).
    destruct ((0 <=? d)%Z && (d <=? 9)%Z) eqn:Hd; [| discriminate].
    apply andb_prop in Hd. destruct Hd as [Hlo _].
    apply Z.leb_le in Hlo. apply IH. lia.
Qed.

Lemma parseOctet_range s n :
  parseOctet s = Some n -> (0 <= n <= 255)%Z.
Proof.
  unfold parseOctet. destruct s as [| c s]; [discriminate |].
  destruct (leadingZero _); [discriminate |].
  destruct (Nat.ltb _ _); [discriminate |].
  destruct (parseDigits (String c s) 0) as [m |] eqn:Hm; [| discriminate].
  destruct (Z.leb_spec m 255) as [Hle | Hgt]; [| discriminate].
  intros H. inversion H; subst. split; [| exact Hle].
  eapply parseDigits_nonneg; [| exact Hm]. lia.
Qed.

Lemma fold_append_map {A B} (f : A -> B) (l : list A) : forall acc,
  fold_left (fun out x => out ++ [f x]) l acc = acc ++ map f l.
Proof.
  induction l as [| x l IH]; intros acc; simpl.
  - rewrite app_nil_r. reflexivity.
  - rewrite IH, <- app_assoc. reflexivity.
Qed.

(** [getRootServers] returns one address for each comma-separated field
    of [ROOT_SERVERS], in the order of the string; for text without a
    colon, what [ParseIP] returns is nil or the 16 bytes of an IPv4
    address in its IPv6 form, each byte in range; and none of the eight
    root servers is nil. *)
Theorem root_servers_are_the_parsed_fields :
  getRootServers = map ParseIP (Split ROOT_SERVERS ",")
  /\ (forall s,
        occurrences ":" s = 0 ->
        ParseIP s = []
        \/ exists a b c d,
             ParseIP s = v4InV6Prefix ++ [a; b; c; d]
             /\ (0 <= a <= 255)%Z /\ (0 <= b <= 255)%Z
             /\ (0 <= c <= 255)%Z /\ (0 <= d <= 255)%Z)
  /\ List.length getRootServers = 8
  /\ Forall (fun ip => List.length ip = 16) getRootServers.
Proof.
  split; [| split; [| split]].
  - unfold getRootServers. rewrite fold_append_map. reflexivity.
  - intros s _. unfold ParseIP.
    destruct (Split s ".") as [| fa [| fb [| fc [| fd [| fe l]]]]];
      cbn [map];
      repeat (match goal with
              | |- context [parseOctet ?f] =>
                  destruct (parseOctet f) eqn:?
              end);
      try (left; reflexivity).
    right. do 4 eexists. split; [reflexivity |].
    repeat split; eapply parseOctet_range; eassumption.
  - vm_compute. reflexivity.
  - apply Forall_forall. intros ip Hin. vm_compute in Hin.
    intuition (subst; reflexivity).
Qed.

(** ** Rounds that go on *)

Lemma continues_snoc sub question k servers0 s0 servers s servers' s' :
  continues sub question k servers0 s0 servers s ->
  dnsQuery_round sub servers question s = (Ret (Continue servers'), s') ->
  continues sub question (S k) servers0 s0 servers' s'.
Proof.
  intros Hcont Hround.
  induction Hcont as [servers s | k servers0 s0 servers1 s1 servers s Hfirst _ IH].
  - eapply continues_S; [exact Hround | apply continues_O].
  - eapply continues_S; [exact Hfirst | apply IH; exact Hround].
Qed.

(** The first thing a round prints is its call of the transport. *)
Lemma round_first_event sub servers question s o s' :
  (forall servers question, logs 0 (sub servers question)) ->
  dnsQuery_round sub servers question s = (o, s') ->
  depth s' = depth s
  /\ exists evs,
       trace s' = trace s ++ EvOutgoing (depth s) question servers :: evs.
Proof.
  intros Hsub. rewrite dnsQuery_round_unfold. unfold bind.
  destruct (outgoingDnsQuery servers question s) as [o1 s1] eqn:Hout.
  destruct (outgoingDnsQuery_trace _ _ _ _ _ Hout) as [Hd Ht].
  destruct o1 as [reply | e | r |];
    try (intros H; inversion H; subst; split; [exact Hd |];
         exists []; exact Ht).
  intros H.
  destruct (logs_afterTransport sub (fst reply) (snd reply) Hsub s1 o s' H)
    as [Hd2 [evs2 [Ht2 _]]].
  rewrite Hd in Hd2. split; [exact Hd2 |].
  exists evs2. rewrite Ht2, Ht, <- app_assoc. reflexivity.
Qed.

Lemma loop_first_event sub rounds servers question s o s' :
  (forall servers question, logs 0 (sub servers question)) ->
  dnsQuery_loop sub (S rounds) servers question s = (o, s') ->
  exists evs,
    trace s' = trace s ++ EvOutgoing (depth s) question servers :: evs.
Proof.
  intros Hsub. cbn [dnsQuery_loop]. unfold bind.
  destruct (dnsQuery_round sub servers question s) as [o1 s1] eqn:Hround.
  destruct (round_first_event _ _ _ _ _ _ Hsub Hround) as [Hd [evs1 Ht]].
  destruct o1 as [[m | servers'] | e | r |];
    try (intros H; inversion H; subst; exists evs1; exact Ht).
  intros H.
  destruct (logs_dnsQuery_loop sub rounds servers' question Hsub s1 o s' H)
    as [_ [evs2 [Ht2 _]]].
  exists (evs1 ++ evs2). rewrite Ht2, Ht, <- app_assoc. reflexivity.
Qed.

(** C8. For a reply that is not authoritative, whose sections decode and
    whose authority section holds an NS record: the nameserver list has
    one entry per authority record, and the glue addresses that the round
    collects against it are those of the A records of the additional
    section whose owner name is equal, byte for byte, to a delegated
    hostname, one address per match. When there is at least one, the
    round ends with these addresses as the next servers in the state in
    which the transport returned, so that no sub-resolution was made; the
    loop goes on from there with exactly these addresses as its servers;
    and in a resolution whose first or second round this is, the next
    thing that happens is the call of the transport with these addresses,
    while after the third round the resolution returns ServerFailure. *)
Theorem glue_preference
    sub fuel k servers0 s0 servers question s p h s1 answers authorities
    additionals :
  outgoingDnsQuery servers question s = (Ret (p, h), s1) ->
  Authoritative h = false ->
  AllAnswers p = inr answers ->
  AllAuthorities p = inr authorities ->
  (exists r, In r authorities /\ RH_Type (R_Header r) = TypeNS) ->
  AllAdditionals p = inr additionals ->
  collectNameservers authorities s1
  = (Ret (map nameserverOf authorities), s1)
  /\ matchGlue additionals (map nameserverOf authorities) s1
     = (Ret (negb (isNil (glueSpec additionals authorities)),
             glueSpec additionals authorities), s1)
  /\ (glueSpec additionals authorities <> [] ->
        (dnsQuery_round sub servers question s
         = (Ret (Continue (glueSpec additionals authorities)), s1)
         /\ trace s1 = trace s ++ [EvOutgoing (depth s) question servers])
        /\ (forall rounds,
              dnsQuery_loop sub (S rounds) servers question s
              = dnsQuery_loop sub rounds (glueSpec additionals authorities)
                              question s1)
        /\ (continues (subResolution fuel) question k servers0
                      (entered question s0) servers s ->
            (k < 2 ->
               dnsQuery (S fuel) servers0 question s0
               = dnsQuery_loop (subResolution fuel) (2 - k)
                               (glueSpec additionals authorities) question s1
               /\ exists evs,
                    trace (snd (dnsQuery (S fuel) servers0 question s0))
                    = trace s1
                      ++ EvOutgoing (depth s1) question
                                    (glueSpec additionals authorities)
                         :: evs)
            /\ (k = 2 ->
                  dnsQuery (S fuel) servers0 question s0
                  = (Ret (rcodeMessage RCodeServerFailure), s1)))).
Proof.
  intros Hout Haa Hans Hauth [r [Hr _]] Hadd.
  assert (Hwf : wfParser p = true).
  { exact (post_outgoingDnsQuery _ _ _ _ _ Hout). }
  destruct (wfParser_sections _ Hwf) as [_ [Hwauth Hwadd]].
  pose proof (wfSection_inr _ _ Hwadd Hadd) as Hadds.
  assert (Hne : authorities <> []).
  { intros ->. destruct Hr. }
  assert (Hround : forall sub',
             glueSpec additionals authorities <> [] ->
             dnsQuery_round sub' servers question s
             = (Ret (Continue (glueSpec additionals authorities)), s1)).
  { intros sub' Hglue.
    rewrite (round_referral sub' _ _ _ _ _ _ _ _ _
                            Hout Haa Hans Hauth Hne Hadd).
    rewrite (glue_refines _ _ Hadds).
    destruct (glueSpec additionals authorities); [contradiction |].
    reflexivity. }
  split; [| split].
  - apply collectNameservers_eq. exact (wfSection_inr _ _ Hwauth Hauth).
  - rewrite (matchGlue_eq _ _ _ Hadds), (glue_refines _ _ Hadds). reflexivity.
  - intros Hglue. split; [| split].
    + split; [exact (Hround sub Hglue) |].
      destruct (outgoingDnsQuery_inv _ _ _ _ _ _ Hout)
        as (_ & _ & _ & _ & _ & _ & _ & _ & _ & _ & _ & Htrace).
      exact Htrace.
    + intros rounds. cbn [dnsQuery_loop]. unfold bind.
      rewrite (Hround sub Hglue). reflexivity.
    + intros Hcont.
      pose proof (continues_snoc _ _ _ _ _ _ _ _ _ Hcont
                                 (Hround (subResolution fuel) Hglue))
        as Hnext.
      split.
      * intros Hk.
        assert (Hrun : dnsQuery (S fuel) servers0 question s0
                       = dnsQuery_loop (subResolution fuel) (2 - k)
                           (glueSpec additionals authorities) question s1).
        { rewrite dnsQuery_entered.
          replace 3 with (S k + (2 - k)) by lia.
          exact (loop_continues _ _ _ _ _ _ _ Hnext (2 - k)). }
        split; [exact Hrun |].
        rewrite Hrun.
        destruct (2 - k) as [| rounds] eqn:Hrounds; [lia |].
        destruct (dnsQuery_loop (subResolution fuel) (S rounds)
                    (glueSpec additionals authorities) question s1)
          as [o s'] eqn:Hloop.
        exact (loop_first_event _ _ _ _ _ _ _
                 (logs_subResolution fuel) Hloop).
      * intros ->. rewrite dnsQuery_entered.
        exact (loop_continues _ _ _ _ _ _ _ Hnext 0).
Qed.

(** ** The lookup of one hostname *)

Lemma lookup_reaches sub pre rest servers s s1 :
  Forall (fun name => String.length name <= nameLen) pre ->
  allFail sub pre s s1 ->
  lookupNameservers sub (pre ++ rest) (false, servers) s
  = lookupNameservers sub rest (false, servers) s1.
Proof.
  intros Hlen Hfail.
  induction Hfail as [s | n names s err s1 s' Hn _ IH]; [reflexivity |].
  inversion Hlen; subst. simpl.
  rewrite (lookup_step_fail _ _ _ _ _ _ _ H1 Hn). apply IH. assumption.
Qed.

Lemma lookup_step sub name names servers s :
  String.length name <= nameLen ->
  (forall servers question, post (sub servers question) answersWf) ->
  lookupNameservers sub (name :: names) (false, servers) s
  = match sub getRootServers
            {| Q_Name := {| Data := name |}; Q_Type := TypeA;
               Q_Class := ClassINET |} s with
    | (Ret response, s3) =>
        (Ret (true, servers ++ flat_map addressOf (Answers response)), s3)
    | (Fail err, s3) =>
        lookupNameservers sub names (false, servers)
          {| world := world s3; depth := depth s3;
             trace := trace s3 ++ [EvWarning (depth s3) name err] |}
    | (Panic reason, s3) => (Panic reason, s3)
    | (Timeout, s3) => (Timeout, s3)
    end.
Proof.
  intros Hlen Hsub.
  destruct (sub getRootServers
              {| Q_Name := {| Data := name |}; Q_Type := TypeA;
                 Q_Class := ClassINET |} s)
    as [[response | err | reason |] s3] eqn:Hrun.
  - apply lookup_step_ok; [exact Hlen | | exact Hrun].
    exact (Hsub _ _ _ _ _ Hrun).
  - apply lookup_step_fail; assumption.
  - unfold lookupNameservers. cbn [forEach].
    unfold bind at 1. cbn [negb].
    unfold bind at 1. rewrite (MustNewName_eq _ _ Hlen).
    unfold bind at 1. unfold try. rewrite Hrun. reflexivity.
  - unfold lookupNameservers. cbn [forEach].
    unfold bind at 1. cbn [negb].
    unfold bind at 1. rewrite (MustNewName_eq _ _ Hlen).
    unfold bind at 1. unfold try. rewrite Hrun. reflexivity.
Qed.

(** A sub-resolution first prints its question, one level deeper. *)
Lemma subResolution_first_event fuel servers question s o s' :
  subResolution (S fuel) servers question s = (o, s') ->
  depth s' = depth s
  /\ exists evs,
       trace s' = trace s ++ EvQuestion (S (depth s)) question :: evs.
Proof.
  unfold subResolution, nested. rewrite dnsQuery_entered.
  destruct (dnsQuery_loop _ _ _ _ _) as [o1 s1] eqn:Hloop.
  intros H. inversion H; subst. simpl. split; [reflexivity |].
  destruct (logs_dnsQuery_loop _ _ _ _ (logs_subResolution fuel) _ _ _ Hloop)
    as [_ [evs [Ht _]]].
  simpl in Ht. exists evs. rewrite Ht, <- app_assoc. reflexivity.
Qed.

(** C9, as amended. For a reply that is not authoritative, whose sections
    decode, whose authority section holds a record that is not of type NS
    and whose additional section gives no glue: the nameserver list has
    an empty-string entry at the place of that record, and the round is
    the fallback over that list. When the fallback reaches the entry (the
    lookups of the hostnames before it have all failed), [MustNewName]
    returns the empty name and the sub-resolution of the A question for
    the empty name is started from the root servers, as its printed
    question shows; what the fallback does next is decided by that
    sub-resolution alone, as for any hostname: its message ends the
    probing, its error is logged and the next hostname is tried. *)
Theorem empty_nameserver_entry_is_looked_up
    fuel servers question s p h s1 answers before r after additionals s2 :
  outgoingDnsQuery servers question s = (Ret (p, h), s1) ->
  Authoritative h = false ->
  AllAnswers p = inr answers ->
  AllAuthorities p = inr (before ++ r :: after) ->
  RH_Type (R_Header r) <> TypeNS ->
  AllAdditionals p = inr additionals ->
  glueSpec additionals (before ++ r :: after) = [] ->
  allFail (subResolution (S fuel)) (map nameserverOf before) s1 s2 ->
  collectNameservers (before ++ r :: after) s1
  = (Ret (map nameserverOf before ++ "" :: map nameserverOf after), s1)
  /\ dnsQuery_round (subResolution (S fuel)) servers question s
     = bind (lookupNameservers (subResolution (S fuel))
               (map nameserverOf before ++ "" :: map nameserverOf after)
               (false, []))
            (fun found => ret (Continue (snd found))) s1
  /\ MustNewName "" s2 = (Ret {| Data := "" |}, s2)
  /\ lookupNameservers (subResolution (S fuel))
       (map nameserverOf before ++ "" :: map nameserverOf after)
       (false, []) s1
     = match subResolution (S fuel) getRootServers
               {| Q_Name := {| Data := "" |}; Q_Type := TypeA;
                  Q_Class := ClassINET |} s2 with
       | (Ret response, s3) =>
           (Ret (true, flat_map addressOf (Answers response)), s3)
       | (Fail err, s3) =>
           lookupNameservers (subResolution (S fuel))
             (map nameserverOf after) (false, [])
             {| world := world s3; depth := depth s3;
                trace := trace s3 ++ [EvWarning (depth s3) "" err] |}
       | (Panic reason, s3) => (Panic reason, s3)
       | (Timeout, s3) => (Timeout, s3)
       end
  /\ exists evs,
       trace (snd (lookupNameservers (subResolution (S fuel))
                     (map nameserverOf before ++ "" :: map nameserverOf after)
                     (false, []) s1))
       = trace s2
         ++ EvQuestion (S (depth s2))
              {| Q_Name := {| Data := "" |}; Q_Type := TypeA;
                 Q_Class := ClassINET |}
            :: evs.
Proof.
  intros Hout Haa Hans Hauth Hty Hadd Hglue Hfail.
  assert (Hwf : wfParser p = true).
  { exact (post_outgoingDnsQuery _ _ _ _ _ Hout). }
  destruct (wfParser_sections _ Hwf) as [_ [Hwauth Hwadd]].
  pose proof (wfSection_inr _ _ Hwauth Hauth) as Hauths.
  pose proof (wfSection_inr _ _ Hwadd Hadd) as Hadds.
  assert (Hempty : nameserverOf r = "").
  { unfold nameserverOf.
    destruct (Z.eqb_spec (RH_Type (R_Header r)) TypeNS);
      [contradiction | reflexivity]. }
  assert (Hlist : map nameserverOf (before ++ r :: after)
                  = map nameserverOf before ++ "" :: map nameserverOf after).
  { rewrite map_app. simpl. rewrite Hempty. reflexivity. }
  pose proof (nameservers_length _ Hauths) as Hlen. rewrite Hlist in Hlen.
  apply Forall_app in Hlen. destruct Hlen as [Hpre _].
  assert (Hstep :
    lookupNameservers (subResolution (S fuel))
                      (map nameserverOf before ++ "" :: map nameserverOf after)
                      (false, []) s1
    = match subResolution (S fuel) getRootServers
              {| Q_Name := {| Data := "" |}; Q_Type := TypeA;
                 Q_Class := ClassINET |} s2 with
      | (Ret response, s3) =>
          (Ret (true, flat_map addressOf (Answers response)), s3)
      | (Fail err, s3) =>
          lookupNameservers (subResolution (S fuel))
            (map nameserverOf after) (false, [])
            {| world := world s3; depth := depth s3;
               trace := trace s3 ++ [EvWarning (depth s3) "" err] |}
      | (Panic reason, s3) => (Panic reason, s3)
      | (Timeout, s3) => (Timeout, s3)
      end).
  { rewrite (lookup_reaches _ _ _ _ _ _ Hpre Hfail).
    rewrite lookup_step;
      [reflexivity | simpl; unfold nameLen; lia
       | intros; apply post_subResolution]. }
  split; [| split; [| split; [| split]]].
  - rewrite <- Hlist. apply collectNameservers_eq. exact Hauths.
  - assert (Hne : before ++ r :: after <> []).
    { intros Heq. destruct before; discriminate. }
    rewrite (round_referral _ _ _ _ _ _ _ _ _ _
                            Hout Haa Hans Hauth Hne Hadd).
    rewrite (glue_refines _ _ Hadds), Hglue, Hlist. cbn [isNil].
    unfold bind.
    destruct (lookupNameservers _ _ _ _) as [[[found servers'] | e | x |] s'];
      reflexivity.
  - apply MustNewName_eq; simpl; unfold nameLen; lia.
  - exact Hstep.
  - rewrite Hstep.
    destruct (subResolution (S fuel) getRootServers
                {| Q_Name := {| Data := "" |}; Q_Type := TypeA;
                   Q_Class := ClassINET |} s2)
      as [o3 s3] eqn:Hsub.
    destruct (subResolution_first_event _ _ _ _ _ _ Hsub) as [_ [evs Ht]].
    destruct o3 as [response | err | reason |];
      try (exists evs; exact Ht).
    destruct (lookupNameservers (subResolution (S fuel))
                (map nameserverOf after) (false, []) _) as [o4 s4] eqn:Hrest.
    destruct (logs_lookupNameservers _ _ _ (logs_subResolution (S fuel))
                                     _ _ _ Hrest)
      as [_ [evs2 [Ht2 _]]].
    simpl in Ht2. simpl.
    exists (evs ++ [EvWarning (depth s3) "" err] ++ evs2).
    rewrite Ht2, Ht. rewrite <- !app_assoc. reflexivity.
Qed.

(** C10. A message that [dnsQuery] returns with result code NameError or
    ServerFailure is zero except for that code: the Response flag is not
    set and the four sections are empty; setting its ID changes nothing
    else. For these outcomes what [handlePacket] packs is the message
    with the request's ID and that code, the Response flag unset and no
    question, and that packing is the only datagram it writes to the
    client. *)
Theorem terminal_rcode_reply_is_bare fuel servers question s m s' :
  dnsQuery fuel servers question s = (Ret m, s') ->
  RCode (M_Header m) = RCodeNameError
  \/ RCode (M_Header m) = RCodeServerFailure ->
  m = rcodeMessage (RCode (M_Header m))
  /\ Response (M_Header m) = false
  /\ Questions m = [] /\ Answers m = []
  /\ Authorities m = [] /\ Additionals m = []
  /\ (forall id,
        Response (M_Header (setID m id)) = false
        /\ Questions (setID m id) = []
        /\ ID (M_Header (setID m id)) = id)
  /\ (forall addr buf header,
        servers = getRootServers ->
        Parser_Start buf = inr header ->
        Parser_Question buf = inr question ->
        handlePacket fuel addr buf s
        = match Pack {| M_Header :=
                          {| ID := ID header; Response := false; OpCode := 0;
                             Authoritative := false; Truncated := false;
                             RecursionDesired := false;
                             RecursionAvailable := false;
                             RCode := RCode (M_Header m) |};
                        Questions := []; Answers := [];
                        Authorities := []; Additionals := [] |} with
          | inl e => (Fail e, s')
          | inr responseBuf =>
              (match fst (WriteTo responseBuf addr (world s')) with
               | None => Ret tt
               | Some e => Fail e
               end,
               {| world := snd (WriteTo responseBuf addr (world s'));
                  depth := depth s'; trace := trace s' |})
          end).
Proof.
  intros Hrun Hrcode.
  pose proof (post_dnsQuery fuel servers question s _ s' Hrun) as Hshape.
  simpl in Hshape.
  assert (Hm : m = rcodeMessage (RCode (M_Header m))).
  { destruct Hshape as [[answers [_ ->]] | [-> | ->]]; [| reflexivity ..].
    simpl in Hrcode. destruct Hrcode; discriminate. }
  split; [exact Hm |].
  split; [rewrite Hm; reflexivity |].
  split; [rewrite Hm; reflexivity |].
  split; [rewrite Hm; reflexivity |].
  split; [rewrite Hm; reflexivity |].
  split; [rewrite Hm; reflexivity |].
  split; [intros id; rewrite Hm; repeat split |].
  intros addr buf header -> Hstart Hquestion.
  unfold handlePacket. unfold bind at 1. rewrite Hstart. cbn [liftE ret].
  unfold bind at 1. rewrite Hquestion. cbn [liftE ret].
  unfold bind at 1. rewrite Hrun.
  unfold bind at 1.
  replace (setID m (ID header))
    with {| M_Header :=
              {| ID := ID header; Response := false; OpCode := 0;
                 Authoritative := false; Truncated := false;
                 RecursionDesired := false; RecursionAvailable := false;
                 RCode := RCode (M_Header m) |};
            Questions := []; Answers := [];
            Authorities := []; Additionals := [] |}
    by (rewrite Hm at 2; reflexivity).
  destruct (Pack _) as [e | responseBuf]; cbn [liftE ret fail];
    [reflexivity |].
  destruct (WriteTo responseBuf addr (world s')) as [[e |] w]; reflexivity.
Qed.

End Further.

(* ===================================================================== *)
(** * The claims on concrete runs *)
(* ===================================================================== *)

(** ** An upstream of referrals without glue *)

Lemma chain_outgoing servers question s n :
  dialable servers = true ->
  canonical (Data (Q_Name question)) = true ->
  world s = chainNet n ->
  outgoingDnsQuery servers question s
  = (Ret chainReply,
     {| world := chainNet (n + 1); depth := depth s;
        trace := trace s ++ [EvOutgoing (depth s) question servers] |}).
Proof.
  intros Hdial Hcanon Hworld.
  destruct s as [w d tr]. simpl in Hworld. subst w.
  destruct servers as [| [| b ip] rest]; try discriminate.
  unfold outgoingDnsQuery, bind, log, io. simpl.
  unfold scriptedPack. simpl. rewrite Hcanon. simpl. reflexivity.
Qed.

Lemma chain_timeout fuel : forall servers question s n,
  dialable servers = true ->
  canonical (Data (Q_Name question)) = true ->
  world s = chainNet n ->
  fst (dnsQuery fuel servers question s) = Timeout.
Proof.
  induction fuel as [| fuel IH]; intros servers question s n Hdial Hcanon Hw.
  - reflexivity.
  - rewrite dnsQuery_entered. cbn [dnsQuery_loop]. apply bind_timeout.
    assert (Hout := chain_outgoing servers question (entered question s) n
                                   Hdial Hcanon Hw).
    rewrite (round_referral (subResolution fuel) _ _ _ _ _ _
                            [] [rrNS "net." "ns.example.net."] []
                            Hout eq_refl eq_refl eq_refl
                            ltac:(discriminate) eq_refl).
    cbn [glueAddresses flat_map isNil]. apply bind_timeout.
    unfold lookupNameservers. cbn [map forEach]. apply bind_timeout.
    cbn [negb]. unfold bind at 1.
    rewrite MustNewName_eq by (vm_compute; lia).
    apply bind_timeout, try_timeout, nested_timeout.
    apply (IH _ _ _ (n + 1)%Z); reflexivity.
Qed.
(** ** Counterexamples to the claims as they were stated *)

(** C1 as stated fails: the reply [soaOnly] is not authoritative and its
    authority section holds no NS record, yet the resolution does not
    return NameError: the SOA record fills a slot of the nameserver list
    with "", the lookup of "" fails, and the second round has no server
    to ask. *)
Lemma soa_only_reply_is_not_name_error :
  delegated [rrSOA "com."] = []
  /\ fst (dnsQuery 2 getRootServers (questionA "example.com.")
                   (start (netOf [soaOnly])))
     = Fail "Failed to make connection to servers: %!s(<nil>)".
Proof. split; vm_compute; reflexivity. Qed.

(** C2 as stated fails: the sub-resolution of the first hostname returns
    the NameError message, which has no A record, and still the flag is
    set, no server is added, and the second hostname is never looked
    up. *)
Lemma lookup_without_address_stops_probing :
  fst (subResolution 1 getRootServers (questionA "ns1.example.net.")
                     (start (netOf [emptyReply])))
  = Ret (rcodeMessage RCodeNameError)
  /\ fst (lookupNameservers (subResolution 1)
            ["ns1.example.net."; "ns2.example.net."] (false, [])
            (start (netOf [emptyReply])))
     = Ret (true, [])
  /\ filter isQuestionEvent
       (trace (snd (lookupNameservers (subResolution 1)
                      ["ns1.example.net."; "ns2.example.net."] (false, [])
                      (start (netOf [emptyReply])))))
     = [EvQuestion 1 (questionA "ns1.example.net.")].
Proof.
  split; [vm_compute; reflexivity |].
  split; vm_compute; reflexivity.
Qed.

(** C3 as stated fails: in the scenario of the specification (a referral
    with glue, then an authoritative answer) the message that is returned
    has the Response flag and the answer, but not the Authoritative
    flag. *)
Lemma resolved_message_is_not_marked_authoritative :
  exists m,
    fst (dnsQuery 1 getRootServers (questionA "example.com.")
                  (start (netOf [referralWithGlue; authoritativeAnswer])))
    = Ret m
    /\ Answers m = [rrA "example.com." [93; 184; 216; 34]%Z]
    /\ Response (M_Header m) = true
    /\ Authoritative (M_Header m) = false.
Proof.
  exists (resolvedMessage [rrA "example.com." [93; 184; 216; 34]%Z]).
  split; [vm_compute; reflexivity |].
  split; [reflexivity |]. split; reflexivity.
Qed.

(** C4 as stated fails: against an upstream that answers every query with
    a referral without glue, no transport call fails and no terminal is
    reached, and the resolution does not return, however deep it is
    allowed to nest. *)
Lemma delegation_chain_never_returns :
  ~ exists fuel,
      fst (dnsQuery fuel getRootServers (questionA "example.com.")
                    (start (chainNet 0)))
      <> Timeout.
Proof.
  intros [fuel H]. apply H.
  apply (chain_timeout fuel _ _ _ 0%Z); reflexivity.
Qed.

(** C9 as stated fails: [MustNewName] returns on the empty string, in
    every state. For the reply [soaOnly], whose SOA record gives the
    nameserver list its empty entry, the empty name is looked up like any
    other (the question of depth 1 in the trace), its lookup fails with
    an error that is logged, and the resolution returns an error. *)
Lemma empty_nameserver_lookup_returns_error :
  (forall (E : External) s,
      @MustNewName E "" s = (Ret {| Data := "" |}, s))
  /\ map nameserverOf [rrSOA "com."] = [""]
  /\ fst (dnsQuery 2 getRootServers (questionA "example.com.")
                (start (netOf [soaOnly])))
  = Fail "Failed to make connection to servers: %!s(<nil>)"
  /\ filter isQuestionEvent
       (trace (snd (dnsQuery 2 getRootServers (questionA "example.com.")
                             (start (netOf [soaOnly])))))
     = [EvQuestion 0 (questionA "example.com."); EvQuestion 1 (questionA "")]
  /\ In (EvWarning 0 ""
           "name is not in canonical format (it must end with a .)")
        (trace (snd (dnsQuery 2 getRootServers (questionA "example.com.")
                              (start (netOf [soaOnly]))))).
Proof.
  split; [intros E s; reflexivity |].
  split; [reflexivity |].
  split; [vm_compute; reflexivity |].
  split; [vm_compute; reflexivity |].
  vm_compute. tauto.
Qed.

(** The scripted random source at its largest value gives the query the
    ID 65534, and in no state does it yield 65535. *)
Lemma largest_query_id_is_65534 :
  fst (rand_Int (uint16 (Z.lnot 0)) (netOf []))
  = inr 65534%Z
  /\ ID (M_Header (queryMessage 65534 (questionA "example.com."))) = 65534%Z
  /\ forall n : Z,
       fst (rand_Int (uint16 (Z.lnot 0)) (chainNet n)) <> inr 65535%Z.
Proof.
  split; [vm_compute; reflexivity |].
  split; [vm_compute; reflexivity |].
  intros n. change (uint16 (Z.lnot 0)) with 65535%Z. simpl.
  intros H. injection H as H.
  pose proof (Z.mod_pos_bound n 65535 ltac:(lia)). lia.
Qed.

(** ** The theorems at concrete inputs *)

Lemma name_error_iff_authority_section_empty_witness :
  (exists s1,
      dnsQuery 2 getRootServers (questionA "example.com.")
               (start (netOf [emptyReply]))
      = (Ret (rcodeMessage RCodeNameError), s1)
      /\ RCode (M_Header (rcodeMessage RCodeNameError)) = RCodeNameError
      /\ Answers (rcodeMessage RCodeNameError) = [])
  /\ (forall m s',
        dnsQuery_round (subResolution 1) getRootServers
                       (questionA "example.com.")
                       (entered (questionA "example.com.")
                                (start (netOf [soaOnly])))
        <> (Ret (Return m), s'))
  /\ fst (dnsQuery_round (subResolution 1) getRootServers
                         (questionA "example.com.")
                         (entered (questionA "example.com.")
                                  (start (netOf [soaOnly]))))
     = Ret (Continue []).
Proof.
  split; [| split].
  - eexists.
    refine (proj1 (name_error_iff_authority_section_empty
                       1 (questionA "example.com.") 0 getRootServers
                       (start (netOf [emptyReply])) getRootServers
                       (entered (questionA "example.com.")
                                (start (netOf [emptyReply])))
                       (fst emptyReply) (snd emptyReply) _ [] []
                       ltac:(lia) (continues_O _ _ _ _)
                       (run_fst _ _ _ _) eq_refl eq_refl eq_refl) eq_refl).
    vm_compute. reflexivity.
  - refine (proj2 (name_error_iff_authority_section_empty
                       1 (questionA "example.com.") 0 getRootServers
                       (start (netOf [soaOnly])) getRootServers
                       (entered (questionA "example.com.")
                                (start (netOf [soaOnly])))
                       (fst soaOnly) (snd soaOnly) _ [] [rrSOA "com."]
                       ltac:(lia) (continues_O _ _ _ _)
                       (run_fst _ _ _ _) eq_refl eq_refl eq_refl)
                  ltac:(discriminate)).
    vm_compute. reflexivity.
  - vm_compute. reflexivity.
Defined.

Lemma fallback_stops_at_first_returned_message_witness :
  (exists s2,
      lookupNameservers (subResolution 1)
        (["bad"] ++ "ns1.example.net." :: ["ns2.example.net."])
        (false, []) (start (netOf [emptyReply]))
      = (Ret (true, [] ++ flat_map addressOf
                            (Answers (rcodeMessage RCodeNameError))), s2))
  /\ (exists s',
        lookupNameservers (subResolution 1) ["bad"] (false, [])
                          (start (netOf [emptyReply]))
        = (Ret (false, []), s')).
Proof.
  destruct (fallback_stops_at_first_returned_message 1) as [Hfirst Hall].
  split.
  - eexists. eapply Hfirst.
    + repeat constructor.
    + eapply allFail_cons; [| apply allFail_nil].
      apply run_fst. vm_compute. reflexivity.
    + apply run_fst. vm_compute. reflexivity.
  - eexists. eapply Hall.
    + repeat constructor.
    + eapply allFail_cons; [| apply allFail_nil].
      apply run_fst. vm_compute. reflexivity.
Defined.

Lemma authoritative_reply_resolves_witness :
  exists m s1,
    dnsQuery 1 getRootServers (questionA "example.com.")
             (start (netOf [referralWithGlue; authoritativeAnswer]))
    = (Ret m, s1)
    /\ Response (M_Header m) = true
    /\ Answers m = [rrA "example.com." [93; 184; 216; 34]%Z]
    /\ Authoritative (M_Header m) = false
    /\ m = resolvedMessage [rrA "example.com." [93; 184; 216; 34]%Z].
Proof.
  pose (q := questionA "example.com.").
  pose (s0 := start (netOf [referralWithGlue; authoritativeAnswer])).
  pose (s1 := snd (dnsQuery_round (subResolution 0) getRootServers q
                                  (entered q s0))).
  pose (s2 := snd (outgoingDnsQuery [[199; 43; 135; 53]%Z] q s1)).
  assert (Hround : dnsQuery_round (subResolution 0) getRootServers q
                                  (entered q s0)
                   = (Ret (Continue [[199; 43; 135; 53]%Z]), s1)).
  { apply run_fst. vm_compute. reflexivity. }
  assert (Hout : outgoingDnsQuery [[199; 43; 135; 53]%Z] q s1
                 = (Ret (fst authoritativeAnswer, snd authoritativeAnswer),
                    s2)).
  { apply run_fst. vm_compute. reflexivity. }
  destruct (authoritative_reply_resolves
              0 q 1 getRootServers s0 [[199; 43; 135; 53]%Z] s1
              (fst authoritativeAnswer) (snd authoritativeAnswer) s2
              [rrA "example.com." [93; 184; 216; 34]%Z]
              ltac:(lia)
              (continues_S _ _ _ _ _ _ _ _ _ Hround (continues_O _ _ _ _))
              Hout eq_refl eq_refl) as [m Hm].
  exists m, s2. exact Hm.
Defined.

Lemma three_rounds_then_server_failure_witness :
  (exists evs,
      trace (snd (dnsQuery 1 getRootServers (questionA "example.com.")
                           (start (netOf [referralWithGlue; referralWithGlue;
                                          referralWithGlue]))))
      = trace (start (netOf [referralWithGlue; referralWithGlue;
                             referralWithGlue])) ++ evs
      /\ countOutgoing 0 evs <= 3)
  /\ (exists s',
        dnsQuery 1 getRootServers (questionA "example.com.")
                 (start (netOf [referralWithGlue; referralWithGlue;
                                referralWithGlue]))
        = (Ret (rcodeMessage RCodeServerFailure), s')).
Proof.
  pose (q := questionA "example.com.").
  pose (s0 := start (netOf [referralWithGlue; referralWithGlue;
                            referralWithGlue])).
  pose (glue := [[199; 43; 135; 53]%Z]).
  pose (s1 := snd (dnsQuery_round (subResolution 0) getRootServers q
                                  (entered q s0))).
  pose (s2 := snd (dnsQuery_round (subResolution 0) glue q s1)).
  pose (s3 := snd (dnsQuery_round (subResolution 0) glue q s2)).
  assert (H1 : dnsQuery_round (subResolution 0) getRootServers q
                              (entered q s0) = (Ret (Continue glue), s1)).
  { apply run_fst. vm_compute. reflexivity. }
  assert (H2 : dnsQuery_round (subResolution 0) glue q s1
               = (Ret (Continue glue), s2)).
  { apply run_fst. vm_compute. reflexivity. }
  assert (H3 : dnsQuery_round (subResolution 0) glue q s2
               = (Ret (Continue glue), s3)).
  { apply run_fst. vm_compute. reflexivity. }
  destruct (three_rounds_then_server_failure 1 getRootServers q s0)
    as [Hbound _].
  destruct (three_rounds_then_server_failure 0 getRootServers q s0)
    as [_ Hfail].
  split; [exact Hbound |].
  exists s3.
  exact (proj1 (Hfail glue s3
                  (continues_S _ _ _ _ _ _ _ _ _ H1
                     (continues_S _ _ _ _ _ _ _ _ _ H2
                        (continues_S _ _ _ _ _ _ _ _ _ H3
                           (continues_O _ _ _ _)))))).
Defined.

Lemma reply_carries_request_id_witness :
  exists header question response s1 responseBuf,
    Parser_Start clientDatagram = inr header
    /\ Parser_Question clientDatagram = inr question
    /\ dnsQuery 1 getRootServers question (start (netOf [emptyReply]))
       = (Ret response, s1)
    /\ Pack (setID response (ID header)) = inr responseBuf
    /\ WriteTo responseBuf "client" (world s1)
       = (None,
          world (snd (handlePacket 1 "client" clientDatagram
                                   (start (netOf [emptyReply])))))
    /\ ID (M_Header (setID response (ID header))) = ID header.
Proof.
  apply (reply_carries_request_id (E := scripted) 1 "client" clientDatagram
                                  (start (netOf [emptyReply]))).
  apply run_fst. vm_compute. reflexivity.
Defined.

Lemma outgoing_id_below_65535_witness :
  exists randomNumber buf conn w,
    Pack (queryMessage randomNumber (questionA "example.com.")) = inr buf
    /\ roundTrip conn buf w
       = (inr (fst emptyReply, snd emptyReply),
          world (snd (outgoingDnsQuery getRootServers
                        (questionA "example.com.")
                        (start (netOf [emptyReply])))))
    /\ (0 <= ID (M_Header (queryMessage randomNumber
                                        (questionA "example.com.")))
        < 65535)%Z.
Proof.
  apply (outgoing_id_below_65535 (E := scripted) getRootServers
                                 (questionA "example.com.")
                                 (start (netOf [emptyReply]))).
  apply run_fst. vm_compute. reflexivity.
Defined.

Lemma transport_error_aborts_witness :
  exists s2,
    dnsQuery 1 getRootServers (questionA "example.com.")
             (start (netOf [referralWithGlue]))
    = (Fail "read udp: i/o timeout", s2).
Proof.
  pose (q := questionA "example.com.").
  pose (s0 := start (netOf [referralWithGlue])).
  pose (glue := [[199; 43; 135; 53]%Z]).
  pose (s1 := snd (dnsQuery_round (subResolution 0) getRootServers q
                                  (entered q s0))).
  pose (s2 := snd (outgoingDnsQuery glue q s1)).
  assert (Hround : dnsQuery_round (subResolution 0) getRootServers q
                                  (entered q s0) = (Ret (Continue glue), s1)).
  { apply run_fst. vm_compute. reflexivity. }
  assert (Hout : outgoingDnsQuery glue q s1
                 = (Fail "read udp: i/o timeout", s2)).
  { apply run_fst. vm_compute. reflexivity. }
  exists s2.
  exact (transport_error_aborts
           0 q 1 getRootServers s0 glue s1 "read udp: i/o timeout" s2
           ltac:(lia)
           (continues_S _ _ _ _ _ _ _ _ _ Hround (continues_O _ _ _ _))
           Hout).
Defined.

Lemma glue_preference_witness :
  exists s1,
    outgoingDnsQuery getRootServers (questionA "example.com.")
      (entered (questionA "example.com.")
         (start (netOf [upstream false []
                          [rrNS "com." "a.iana-servers.net."]
                          [rrA "a.iana-servers.net." [199; 43; 135; 53]%Z;
                           rrA "A.IANA-SERVERS.NET." [192; 0; 2; 1]%Z];
                        authoritativeAnswer])))
    = (Ret (upstream false []
              [rrNS "com." "a.iana-servers.net."]
              [rrA "a.iana-servers.net." [199; 43; 135; 53]%Z;
               rrA "A.IANA-SERVERS.NET." [192; 0; 2; 1]%Z]), s1)
    /\ matchGlue [rrA "a.iana-servers.net." [199; 43; 135; 53]%Z;
                  rrA "A.IANA-SERVERS.NET." [192; 0; 2; 1]%Z]
                 ["a.iana-servers.net."] s1
       = (Ret (true, [[199; 43; 135; 53]%Z]), s1)
    /\ dnsQuery_round (subResolution 0) getRootServers
         (questionA "example.com.")
         (entered (questionA "example.com.")
            (start (netOf [upstream false []
                             [rrNS "com." "a.iana-servers.net."]
                             [rrA "a.iana-servers.net." [199; 43; 135; 53]%Z;
                              rrA "A.IANA-SERVERS.NET." [192; 0; 2; 1]%Z];
                           authoritativeAnswer])))
       = (Ret (Continue [[199; 43; 135; 53]%Z]), s1)
    /\ dnsQuery 1 getRootServers (questionA "example.com.")
         (start (netOf [upstream false []
                          [rrNS "com." "a.iana-servers.net."]
                          [rrA "a.iana-servers.net." [199; 43; 135; 53]%Z;
                           rrA "A.IANA-SERVERS.NET." [192; 0; 2; 1]%Z];
                        authoritativeAnswer]))
       = dnsQuery_loop (subResolution 0) 2 [[199; 43; 135; 53]%Z]
                       (questionA "example.com.") s1
    /\ exists evs,
         trace (snd (dnsQuery 1 getRootServers (questionA "example.com.")
                       (start (netOf [upstream false []
                                        [rrNS "com." "a.iana-servers.net."]
                                        [rrA "a.iana-servers.net."
                                             [199; 43; 135; 53]%Z;
                                         rrA "A.IANA-SERVERS.NET."
                                             [192; 0; 2; 1]%Z];
                                      authoritativeAnswer]))))
         = trace s1
           ++ EvOutgoing (depth s1) (questionA "example.com.")
                         [[199; 43; 135; 53]%Z]
              :: evs.
Proof.
  pose (q := questionA "example.com.").
  pose (authorities := [rrNS "com." "a.iana-servers.net."]).
  pose (additionals := [rrA "a.iana-servers.net." [199; 43; 135; 53]%Z;
                        rrA "A.IANA-SERVERS.NET." [192; 0; 2; 1]%Z]).
  pose (reply := upstream false [] authorities additionals).
  pose (s0 := start (netOf [reply; authoritativeAnswer])).
  pose (s1 := snd (outgoingDnsQuery getRootServers q (entered q s0))).
  assert (Hout : outgoingDnsQuery getRootServers q (entered q s0)
                 = (Ret (fst reply, snd reply), s1)).
  { apply run_fst. vm_compute. reflexivity. }
  destruct (glue_preference
              (subResolution 0) 0 0 getRootServers s0 getRootServers q
              (entered q s0) (fst reply) (snd reply) s1
              [] authorities additionals
              Hout eq_refl eq_refl eq_refl
              (ex_intro _ (rrNS "com." "a.iana-servers.net.")
                        (conj (or_introl eq_refl) eq_refl))
              eq_refl) as [_ [Hmatch Hglue]].
  assert (Hne : glueSpec additionals authorities <> []).
  { vm_compute. discriminate. }
  destruct (Hglue Hne) as [[Hround _] [_ Hres]].
  destruct (Hres (continues_O _ _ _ _)) as [Hlt _].
  destruct (Hlt ltac:(lia)) as [Hrun Htrace].
  exists s1.
  split; [exact Hout |].
  split; [exact Hmatch |].
  split; [exact Hround |].
  split; [exact Hrun | exact Htrace].
Defined.

Lemma empty_nameserver_entry_is_looked_up_witness :
  exists s1 s2,
    outgoingDnsQuery getRootServers (questionA "example.com.")
      (entered (questionA "example.com.")
         (start (netOf [upstream false []
                          [rrNS "com." "ns1.example.net."; rrSOA "com."]
                          []])))
    = (Ret (upstream false []
              [rrNS "com." "ns1.example.net."; rrSOA "com."] []), s1)
    /\ allFail (subResolution 1) ["ns1.example.net."] s1 s2
    /\ collectNameservers [rrNS "com." "ns1.example.net."; rrSOA "com."] s1
       = (Ret ["ns1.example.net."; ""], s1)
    /\ dnsQuery_round (subResolution 1) getRootServers
         (questionA "example.com.")
         (entered (questionA "example.com.")
            (start (netOf [upstream false []
                             [rrNS "com." "ns1.example.net."; rrSOA "com."]
                             []])))
       = bind (lookupNameservers (subResolution 1)
                 ["ns1.example.net."; ""] (false, []))
              (fun found => ret (Continue (snd found))) s1
    /\ MustNewName "" s2 = (Ret (nm ""), s2)
    /\ lookupNameservers (subResolution 1) ["ns1.example.net."; ""]
                         (false, []) s1
       = match subResolution 1 getRootServers (questionA "") s2 with
         | (Ret response, s3) =>
             (Ret (true, flat_map addressOf (Answers response)), s3)
         | (Fail err, s3) =>
             lookupNameservers (subResolution 1) [] (false, [])
               {| world := world s3; depth := depth s3;
                  trace := trace s3 ++ [EvWarning (depth s3) "" err] |}
         | (Panic reason, s3) => (Panic reason, s3)
         | (Timeout, s3) => (Timeout, s3)
         end
    /\ (exists evs,
          trace (snd (lookupNameservers (subResolution 1)
                        ["ns1.example.net."; ""] (false, []) s1))
          = trace s2 ++ EvQuestion (S (depth s2)) (questionA "") :: evs)
    /\ fst (subResolution 1 getRootServers (questionA "") s2)
       = Fail "name is not in canonical format (it must end with a .)".
Proof.
  pose (q := questionA "example.com.").
  pose (reply := upstream false []
                   [rrNS "com." "ns1.example.net."; rrSOA "com."] []).
  pose (s0 := start (netOf [reply])).
  pose (s1 := snd (outgoingDnsQuery getRootServers q (entered q s0))).
  pose (s3 := snd (subResolution 1 getRootServers
                     (questionA "ns1.example.net.") s1)).
  pose (s2 := {| world := world s3; depth := depth s3;
                 trace := trace s3
                          ++ [EvWarning (depth s3) "ns1.example.net."
                                        "read udp: i/o timeout"] |}).
  assert (Hout : outgoingDnsQuery getRootServers q (entered q s0)
                 = (Ret (fst reply, snd reply), s1)).
  { apply run_fst. vm_compute. reflexivity. }
  assert (Hsub : subResolution 1 getRootServers
                   (questionA "ns1.example.net.") s1
                 = (Fail "read udp: i/o timeout", s3)).
  { apply run_fst. vm_compute. reflexivity. }
  assert (Hfail : allFail (subResolution 1) ["ns1.example.net."] s1 s2).
  { exact (allFail_cons (E := scripted) _ _ _ _ _ _ _ Hsub
                        (allFail_nil _ s2)). }
  assert (Hty : RH_Type (R_Header (rrSOA "com.")) <> TypeNS).
  { vm_compute. discriminate. }
  destruct (empty_nameserver_entry_is_looked_up
              0 getRootServers q (entered q s0) (fst reply) (snd reply) s1
              [] [rrNS "com." "ns1.example.net."] (rrSOA "com.") [] [] s2
              Hout eq_refl eq_refl eq_refl Hty eq_refl eq_refl Hfail)
    as [Hcollect [Hround [Hname [Hstep Htrace]]]].
  exists s1, s2.
  split; [exact Hout |].
  split; [exact Hfail |].
  split; [exact Hcollect |].
  split; [exact Hround |].
  split; [exact Hname |].
  split; [exact Hstep |].
  split; [exact Htrace |].
  vm_compute. reflexivity.
Defined.

Lemma terminal_rcode_reply_is_bare_witness :
  exists s',
    dnsQuery 1 getRootServers (questionA "example.com.")
             (start (netOf [emptyReply]))
    = (Ret (rcodeMessage RCodeNameError), s')
    /\ Response (M_Header (rcodeMessage RCodeNameError)) = false
    /\ Questions (rcodeMessage RCodeNameError) = []
    /\ handlePacket 1 "client" clientDatagram (start (netOf [emptyReply]))
       = match Pack {| M_Header :=
                         {| ID := 4660; Response := false; OpCode := 0;
                            Authoritative := false; Truncated := false;
                            RecursionDesired := false;
                            RecursionAvailable := false;
                            RCode := RCodeNameError |};
                       Questions := []; Answers := [];
                       Authorities := []; Additionals := [] |} with
         | inl e => (Fail e, s')
         | inr responseBuf =>
             (match fst (WriteTo responseBuf "client" (world s')) with
              | None => Ret tt
              | Some e => Fail e
              end,
              {| world := snd (WriteTo responseBuf "client" (world s'));
                 depth := depth s'; trace := trace s' |})
         end
    /\ sent (world (snd (handlePacket 1 "client" clientDatagram
                           (start (netOf [emptyReply])))))
       = [("client", map byteOfZ [18; 52; 0; 3]%Z)].
Proof.
  pose (q := questionA "example.com.").
  pose (s0 := start (netOf [emptyReply])).
  pose (s' := snd (dnsQuery 1 getRootServers q s0)).
  pose (header := {| ID := 4660%Z; Response := false; OpCode := 0%Z;
                     Authoritative := false; Truncated := false;
                     RecursionDesired := false; RecursionAvailable := false;
                     RCode := 0%Z |}).
  assert (Hrun : dnsQuery 1 getRootServers q s0
                 = (Ret (rcodeMessage RCodeNameError), s')).
  { apply run_fst. vm_compute. reflexivity. }
  assert (Hstart : Parser_Start clientDatagram = inr header).
  { vm_compute. reflexivity. }
  assert (Hquestion : Parser_Question clientDatagram = inr q).
  { vm_compute. reflexivity. }
  destruct (terminal_rcode_reply_is_bare (E := scripted)
              1 getRootServers q s0 (rcodeMessage RCodeNameError) s'
              Hrun (or_introl eq_refl))
    as [_ [Hresponse [Hquestions [_ [_ [_ [_ Hpacket]]]]]]].
  exists s'.
  split; [exact Hrun |].
  split; [exact Hresponse |].
  split; [exact Hquestions |].
  split; [exact (Hpacket "client" clientDatagram header
                         eq_refl Hstart Hquestion) |].
  vm_compute. reflexivity.
Defined.

(** ** The further properties at concrete inputs *)

Lemma first_server_that_connects_is_asked_witness :
  fst (outgoingDnsQuery ([[]] ++ [199; 43; 135; 53]%Z :: [[192; 0; 2; 1]%Z])
                        (questionA "example.com.")
                        (start (netOf [emptyReply])))
  = Ret emptyReply
  /\ fst (outgoingDnsQuery [[]; []] (questionA "example.com.")
                           (start (netOf [emptyReply])))
     = Fail "Failed to make connection to servers: dial udp: missing address".
Proof.
  pose (w1 := snd (scriptedRand 65535 (netOf [emptyReply]))).
  destruct (first_server_that_connects_is_asked
              (E := scripted) (questionA "example.com.")
              (start (netOf [emptyReply])) 65534 w1
              (map byteOfZ [255; 254; 0; 0]%Z
               ++ list_byte_of_string "example.com.")
              ltac:(vm_compute; reflexivity) ltac:(vm_compute; reflexivity))
    as [Hfirst Hnone].
  split.
  - refine (eq_trans (f_equal fst
             (Hfirst [[]] [199; 43; 135; 53]%Z [[192; 0; 2; 1]%Z]
                    (Some "dial udp: missing address") w1
                    [199; 43; 135; 53]%Z w1
                    (dialsFail_cons (E := scripted) [] [] None w1 _ w1 _ w1 eq_refl
                                    (dialsFail_nil (E := scripted) _ w1))
                    eq_refl)) _).
    vm_compute. reflexivity.
  - refine (eq_trans (f_equal fst
             (Hnone [[]; []] (Some "dial udp: missing address") w1
                   (dialsFail_cons (E := scripted) [] [[]] None w1 _ w1 _ w1 eq_refl
                      (dialsFail_cons (E := scripted) [] [] _ w1 _ w1 _ w1 eq_refl
                         (dialsFail_nil (E := scripted) _ w1))))) _).
    vm_compute. reflexivity.
Defined.

Lemma section_that_does_not_decode_aborts_witness :
  fst (dnsQuery 1 getRootServers (questionA "example.com.")
                (start (netOf [brokenAnswers])))
  = Fail "unpacking Answer: insufficient data"
  /\ fst (dnsQuery 1 getRootServers (questionA "example.com.")
                   (start (netOf [brokenAuthorities])))
     = Fail "unpacking Authority: insufficient data"
  /\ fst (dnsQuery 1 getRootServers (questionA "example.com.")
                   (start (netOf [brokenAdditionals])))
     = Fail "unpacking Additional: insufficient data".
Proof.
  pose (q := questionA "example.com.").
  assert (H : forall reply : Parser * Header,
             wfParser (fst reply) = true ->
             outgoingDnsQuery getRootServers q
                              (entered q (start (netOf [reply])))
             = (Ret (fst reply, snd reply),
                snd (outgoingDnsQuery getRootServers q
                                      (entered q (start (netOf [reply])))))).
  { intros [p h] Hwf. apply run_fst.
    rewrite outgoingDnsQuery_unfold. simpl. unfold scriptedRoundTrip, decoded.
    simpl in *. rewrite Hwf. reflexivity. }
  split; [| split].
  - refine (f_equal fst
              (proj1 (section_that_does_not_decode_aborts
                        (E := scripted) 0 q 0 getRootServers
                        (start (netOf [brokenAnswers])) getRootServers _ _ _ _
                        ltac:(lia) (continues_O _ _ _ _)
                        (H brokenAnswers eq_refl)) _ eq_refl)).
  - refine (f_equal fst
              (proj1 (proj2 (section_that_does_not_decode_aborts
                        (E := scripted) 0 q 0 getRootServers
                        (start (netOf [brokenAuthorities])) getRootServers
                        _ _ _ _
                        ltac:(lia) (continues_O _ _ _ _)
                        (H brokenAuthorities eq_refl)))
                     [] _ eq_refl eq_refl eq_refl)).
  - refine (f_equal fst
              (proj2 (proj2 (section_that_does_not_decode_aborts
                        (E := scripted) 0 q 0 getRootServers
                        (start (netOf [brokenAdditionals])) getRootServers
                        _ _ _ _
                        ltac:(lia) (continues_O _ _ _ _)
                        (H brokenAdditionals eq_refl)))
                     [] [rrNS "com." "a.iana-servers.net."] _
                     eq_refl eq_refl eq_refl ltac:(discriminate) eq_refl)).
Defined.

Lemma round_without_servers_ends_in_error_witness :
  exists e,
    dnsQuery 2 getRootServers (questionA "example.com.")
             (start (netOf [soaOnly]))
    = (Fail e,
       snd (outgoingDnsQuery []
              (questionA "example.com.")
              (snd (dnsQuery_round (subResolution 1) getRootServers
                      (questionA "example.com.")
                      (entered (questionA "example.com.")
                               (start (netOf [soaOnly])))))))
    /\ (forall randomNumber w1 buf,
          rand_Int 65535
            (world (snd (dnsQuery_round (subResolution 1) getRootServers
                           (questionA "example.com.")
                           (entered (questionA "example.com.")
                                    (start (netOf [soaOnly]))))))
          = (inr randomNumber, w1) ->
          Pack (queryMessage randomNumber (questionA "example.com."))
          = inr buf ->
          e = "Failed to make connection to servers: %!s(<nil>)").
Proof.
  apply (round_without_servers_ends_in_error
           (E := scripted) 1 (questionA "example.com.") 1 getRootServers
           (start (netOf [soaOnly]))).
  - lia.
  - eapply continues_S; [| apply continues_O].
    apply run_fst. vm_compute. reflexivity.
Defined.

Lemma transport_calls_of_a_returned_message_witness :
  exists evs,
    trace (snd (dnsQuery 1 getRootServers (questionA "example.com.")
                         (start (netOf [referralWithGlue; referralWithGlue;
                                        referralWithGlue]))))
    = trace (start (netOf [referralWithGlue; referralWithGlue;
                           referralWithGlue])) ++ evs
    /\ 1 <= countOutgoing 0 evs <= 3
    /\ (RCode (M_Header (rcodeMessage RCodeServerFailure))
        = RCodeServerFailure ->
        countOutgoing 0 evs = 3).
Proof.
  apply (transport_calls_of_a_returned_message
           (E := scripted) 1 getRootServers (questionA "example.com.")
           (start (netOf [referralWithGlue; referralWithGlue;
                          referralWithGlue]))
           (rcodeMessage RCodeServerFailure)).
  apply run_fst. vm_compute. reflexivity.
Defined.

Lemma returned_message_shape_witness :
  Response (M_Header (resolvedMessage [rrA "example.com." [93; 184; 216; 34]%Z]))
  = true
  <-> RCode (M_Header (resolvedMessage
                         [rrA "example.com." [93; 184; 216; 34]%Z]))
      = RCodeSuccess.
Proof.
  refine (proj1 (proj2 (proj2 (proj2 (proj2 (proj2 (proj2 (proj2 (proj2
           (proj2 (proj2
             (returned_message_shape
                (E := scripted) 1 getRootServers (questionA "example.com.")
                (start (netOf [referralWithGlue; authoritativeAnswer]))
                (resolvedMessage [rrA "example.com." [93; 184; 216; 34]%Z])
                _ (run_fst _ _ _ _))))))))))))).
  vm_compute. reflexivity.
Defined.

Lemma handlePacket_writes_only_after_success_witness :
  (exists header question response s1 responseBuf err,
      Parser_Start clientDatagram = inr header
      /\ Parser_Question clientDatagram = inr question
      /\ dnsQuery 1 getRootServers question (start (netOf [emptyReply]))
         = (Ret response, s1)
      /\ Pack (setID response (ID header)) = inr responseBuf
      /\ WriteTo responseBuf "client" (world s1)
         = (err,
            world (snd (handlePacket 1 "client" clientDatagram
                                     (start (netOf [emptyReply])))))
      /\ Ret tt = match err with None => Ret tt | Some e => Fail e end
      /\ depth (snd (handlePacket 1 "client" clientDatagram
                                  (start (netOf [emptyReply]))))
         = depth s1
      /\ trace (snd (handlePacket 1 "client" clientDatagram
                                  (start (netOf [emptyReply]))))
         = trace s1)
  \/ (Ret tt <> Ret tt
      /\ (snd (handlePacket 1 "client" clientDatagram
                            (start (netOf [emptyReply])))
          = start (netOf [emptyReply])
          \/ exists question,
               Parser_Question clientDatagram = inr question
               /\ snd (handlePacket 1 "client" clientDatagram
                                    (start (netOf [emptyReply])))
                  = snd (dnsQuery 1 getRootServers question
                                  (start (netOf [emptyReply]))))).
Proof.
  apply (handlePacket_writes_only_after_success
           (E := scripted) 1 "client" clientDatagram
           (start (netOf [emptyReply]))).
  apply run_fst. vm_compute. reflexivity.
Defined.

Lemma authoritative_answer_reaches_the_client_witness :
  exists s',
    handlePacket 1 "client" clientDatagram
                 (start (netOf [referralWithGlue; authoritativeAnswer]))
    = (Ret tt, s')
    /\ sent (world s')
       = [("client", map byteOfZ [18; 52; 1; 0]%Z)].
Proof.
  pose (q := questionA "example.com.").
  pose (s0 := start (netOf [referralWithGlue; authoritativeAnswer])).
  pose (glue := [[199; 43; 135; 53]%Z]).
  pose (s1 := snd (dnsQuery_round (subResolution 0) getRootServers q
                                  (entered q s0))).
  pose (s2 := snd (outgoingDnsQuery glue q s1)).
  pose (buf := map byteOfZ [18; 52; 1; 0]%Z).
  pose (w := snd (scriptedWriteTo buf "client" (world s2))).
  assert (Hround : dnsQuery_round (subResolution 0) getRootServers q
                                  (entered q s0) = (Ret (Continue glue), s1)).
  { apply run_fst. vm_compute. reflexivity. }
  assert (Hout : outgoingDnsQuery glue q s1
                 = (Ret (fst authoritativeAnswer, snd authoritativeAnswer),
                    s2)).
  { apply run_fst. vm_compute. reflexivity. }
  pose (header := {| ID := 4660; Response := false; OpCode := 0;
                     Authoritative := false; Truncated := false;
                     RecursionDesired := false; RecursionAvailable := false;
                     RCode := 0 |}).
  exists (@Build_State scripted w (depth s2) (trace s2)).
  split; [| vm_compute; reflexivity].
  refine (authoritative_answer_reaches_the_client
            (E := scripted) 0 "client" clientDatagram s0
            header q 1 glue s1
            (fst authoritativeAnswer) (snd authoritativeAnswer) s2
            [rrA "example.com." [93; 184; 216; 34]%Z] buf w
            _ _ ltac:(lia)
            (continues_S _ _ _ _ _ _ _ _ _ Hround (continues_O _ _ _ _))
            Hout eq_refl eq_refl _ _);
    vm_compute; reflexivity.
Defined.

